(** * To-do application: task query, bulk, statistics and deadline logic

    A shallow embedding of
    - [backend/models/Todo.js]   (the Mongoose schema of a task),
    - [backend/routes/todos.js]  (the REST handlers), and
    - the two React clients, the offline [App] and the backend-integrated
      [TodoApp] (both shipped in [backend/config/db.js]),
    followed by the properties of the specification that concern them.

    Conventions.
    - Instants are milliseconds since the epoch, in [Z]; a deadline is
      [option Z], [None] being JavaScript's [null]. Differences of instants
      divided by a constant are exact rationals ([Q]); the doubles of the
      source are exact on integers of this size and their quotients round
      monotonically, so every comparison below has the same outcome.
    - Counters and lengths are [nat]. Numbers a caller types ([page],
      [limit]) are exact integers; the doubles of the source are exact up
      to 2^53, far beyond any collection.
    - A string is a [string] whose characters are the UTF-16 code units of
      the JavaScript string; the embedding covers the code units below 256
      (ASCII and the Latin-1 block). Strings with other code units, and so
      surrogate pairs, are outside it: on the strings covered, the length
      validator.js' [isLength] counts and the [length] a Mongoose
      [maxlength] compares are the same number.
    - The task collection of the document store is a [list] of documents in
      insertion order; a request is one function from the collection to a
      reply (and, for writes, the new collection).
    - A JavaScript object used as a dictionary ([req.query], [req.body]) is a
      [gmap string _]; an absent key is [undefined].
    - What the sources leave open is a parameter, never a choice made here:
      the parsers of date strings, the version of the web framework (which
      decides whether a sanitized query parameter reaches the handler) and
      the store's pattern engine beyond the fragment of patterns that is
      embedded. *)

From stdpp Require Import base decidable option list strings gmap sorting pretty.
From Stdlib Require Import ZArith Lia Ascii QArith Qround.

Close Scope Q_scope.
Local Open Scope string_scope.

(** ** JavaScript primitives used by the sources *)

Module Js.

(** The code units below 256 that [String.prototype.trim], the [\s] class
    of validator.js' [trim] and the [trim] option of a Mongoose string path
    remove: tab, line feed, vertical tab, form feed, carriage return,
    space, and the no-break space U+00A0. *)
Definition is_whitespace (c : ascii) : bool :=
  let n := nat_of_ascii c in
  (Nat.leb 9 n && Nat.leb n 13) || Nat.eqb n 32 || Nat.eqb n 160.

Fixpoint trimStart (s : string) : string :=
  match s with
  | EmptyString => EmptyString
  | String c r => if is_whitespace c then trimStart r else s
  end.

Fixpoint trimEnd (s : string) : string :=
  match s with
  | EmptyString => EmptyString
  | String c r =>
      match trimEnd r with
      | EmptyString => if is_whitespace c then EmptyString else String c EmptyString
      | r' => String c r'
      end
  end.

Definition trim (s : string) : string := trimEnd (trimStart s).

(** [s !== ''] / truthiness of a string. *)
Definition nonempty (s : string) : bool :=
  match s with EmptyString => false | _ => true end.

(** Case folding of one code unit below 256: the letters A-Z and the
    capital letters of the Latin-1 block (U+00C0-U+00DE but the
    multiplication sign U+00D7) have their small form 32 places on. *)
Definition toLowerCase_char (c : ascii) : ascii :=
  let n := nat_of_ascii c in
  if (Nat.leb 65 n && Nat.leb n 90)
     || (Nat.leb 192 n && Nat.leb n 222 && negb (Nat.eqb n 215))
  then ascii_of_nat (n + 32) else c.

Fixpoint toLowerCase (s : string) : string :=
  match s with
  | EmptyString => EmptyString
  | String c r => String (toLowerCase_char c) (toLowerCase r)
  end.

(** The integers a double holds exactly; [String(n)] prints them in plain
    decimal digits. *)
Definition safe_integer (n : Z) : bool := (Z.abs n <=? 9007199254740991)%Z.

(** JSON values a request body can carry: [null], the booleans, strings,
    and the numbers that are safe integers. Other numbers (fractions,
    magnitudes beyond 2^53), arrays and objects are outside the
    embedding. *)
Inductive value : Type :=
| VNull
| VBool (b : bool)
| VNum (n : Z) (safe : Is_true (safe_integer n))
| VStr (s : string).

(** [if (v)]: JavaScript truthiness. *)
Definition truthy (v : value) : bool :=
  match v with
  | VNull => false
  | VBool b => b
  | VNum n _ => negb (n =? 0)%Z
  | VStr s => nonempty s
  end.

(** The string express-validator validates and sanitizes for a field:
    [null] becomes the empty string, everything else is [String(v)]. *)
Definition toString (v : value) : string :=
  match v with
  | VNull => EmptyString
  | VBool true => "true"
  | VBool false => "false"
  | VNum n _ => pretty n
  | VStr s => s
  end.

Definition is_digit (c : ascii) : bool :=
  let n := nat_of_ascii c in Nat.leb 48 n && Nat.leb n 57.

Definition digit_value (c : ascii) : Z := Z.of_nat (nat_of_ascii c - 48).

Fixpoint all_digits (s : string) : bool :=
  match s with
  | EmptyString => true
  | String c r => is_digit c && all_digits r
  end.

Fixpoint digits_value (acc : Z) (s : string) : Z :=
  match s with
  | EmptyString => acc
  | String c r => digits_value (10 * acc + digit_value c) r
  end.

(** The decimal numerals accepted by validator.js' [isInt]: an optional
    sign and at least one digit (leading zeroes are allowed by default).
    The result is the number denoted, which is also what [parseInt]
    returns on such a string. *)
Definition int_of_string (s : string) : option Z :=
  match s with
  | String "-" r =>
      if nonempty r && all_digits r then Some (- digits_value 0 r)%Z else None
  | String "+" r =>
      if nonempty r && all_digits r then Some (digits_value 0 r) else None
  | _ => if nonempty s && all_digits s then Some (digits_value 0 s) else None
  end.

(** [parseInt(x) || dflt] for an optional query parameter: [parseInt] of
    [undefined] is [NaN], and both [NaN] and [0] are falsy. *)
Definition parseInt_or (x : option string) (dflt : Z) : Z :=
  match x ≫= int_of_string with
  | Some n => if (n =? 0)%Z then dflt else n
  | None => dflt
  end.

(** [Array.prototype.sort(cmp)]: for a consistent comparator the result is
    ordered by [cmp] and stable, which determines it; inserting from the
    right, each element before the first one it does not come after, is
    such a sort. *)
Fixpoint insert_by {A} (cmp : A → A → Z) (x : A) (l : list A) : list A :=
  match l with
  | [] => [x]
  | y :: r => if (cmp x y <=? 0)%Z then x :: l else y :: insert_by cmp x r
  end.

Definition sort {A} (cmp : A → A → Z) (l : list A) : list A :=
  foldr (insert_by cmp) [] l.

End Js.

(** ** The task model: [backend/models/Todo.js] *)

Definition ObjectId := nat.

(** The reply envelope of every handler:
    [{success, message?, data?, pagination?, modifiedCount?}] with the HTTP
    status it is sent with. *)
Record Pagination := mkPagination {
  current : Z;
  totalPages : Z;
  hasNext : bool;
  hasPrev : bool;
  totalTodos : nat
}.

Record Reply (A : Type) := mkReply {
  status : nat;
  success : bool;
  data : option A;
  pagination : option Pagination;
  modifiedCount : option nat
}.
Arguments mkReply {A}.
Arguments status {A}.
Arguments success {A}.
Arguments data {A}.
Arguments pagination {A}.
Arguments modifiedCount {A}.

Definition reply_error {A} (code : nat) : Reply A :=
  mkReply code false None None None.

Module Todo.

(** A stored document. [deadline] defaults to [null] and [completed] to
    [false]; [category] has no default and may be absent. *)
Record t := mk {
  _id : ObjectId;
  user : ObjectId;
  text : string;
  completed : bool;
  deadline : option Z;
  priority : string;
  category : option string;
  createdAt : Z;
  updatedAt : Z
}.

#[global] Instance t_eq_dec : EqDecision t.
Proof. solve_decision. Defined.

(** The fields a caller of [Todo.create] may supply. *)
Record data := mkData {
  d_text : string;
  d_user : ObjectId;
  d_completed : option bool;
  d_deadline : option Z;
  d_priority : option string;
  d_category : option string
}.

(** The document [new Todo(d)] builds: the setters trim [text] and
    [category], schema defaults fill the fields that were not given, the
    store assigns the identifier and both timestamps. *)
Definition new_document (fresh : ObjectId) (now : Z) (d : data) : t :=
  {| _id := fresh;
     user := d_user d;
     text := Js.trim (d_text d);
     completed := default false (d_completed d);
     deadline := d_deadline d;
     priority := default "medium" (d_priority d);
     category := Js.trim <$> d_category d;
     createdAt := now;
     updatedAt := now |}.

(** The validators of the schema: [required] and [maxlength] on [text],
    [enum] on [priority], [maxlength] on [category]. [maxlength] compares
    the [length] of the string, its number of UTF-16 code units. *)
Definition valid_text (s : string) : bool :=
  Js.nonempty s && Nat.leb (String.length s) 500.

Definition valid_priority (s : string) : bool :=
  bool_decide (s ∈ ["low"; "medium"; "high"]).

Definition valid_category (o : option string) : bool :=
  match o with
  | Some s => Nat.leb (String.length s) 50
  | None => true
  end.

(** [Todo.create]: the document is validated and then stored; [None] is a
    ValidationError. *)
Definition create (fresh : ObjectId) (now : Z) (d : data) : option t :=
  let doc := new_document fresh now d in
  if valid_text (text doc) && valid_priority (priority doc)
     && valid_category (category doc)
  then Some doc else None.

Definition set_completed (b : bool) (now : Z) (x : t) : t :=
  {| _id := _id x; user := user x; text := text x; completed := b;
     deadline := deadline x; priority := priority x;
     category := category x; createdAt := createdAt x; updatedAt := now |}.

End Todo.

(** The collection, in insertion order. *)
Abbreviation Collection := (list Todo.t).

(** ** The store's query language, as far as the handlers use it *)

(** [$regex] patterns. The store hands the pattern to a PCRE engine. The
    fragment embedded here has literal characters, the wildcard [.] (any
    character but a line feed) and a backslash-escaped metacharacter;
    [parse] gives [None] for a pattern using anything else (quantifiers,
    groups, classes, anchors, alternation). What the engine makes of such a
    pattern is a parameter of [compile]. *)
Module Regex.

Inductive atom : Type :=
| Lit (c : ascii)
| AnyChar.

Definition metachars : list ascii :=
  ["\"; "^"; "$"; "."; "|"; "?"; "*"; "+"; "("; ")"; "["; "]"; "{"; "}"]%char.

Definition is_meta (c : ascii) : bool := bool_decide (c ∈ metachars).

Fixpoint parse (s : string) : option (list atom) :=
  match s with
  | EmptyString => Some []
  | String c r =>
      if Ascii.eqb c "\" then
        match r with
        | String c' r' => if is_meta c' then cons (Lit c') <$> parse r' else None
        | EmptyString => None
        end
      else if Ascii.eqb c "." then cons AnyChar <$> parse r
      else if is_meta c then None
      else cons (Lit c) <$> parse r
  end.

(** One pattern position against one character, under option [i]. *)
Definition atom_matches (a : atom) (x : ascii) : bool :=
  match a with
  | Lit c => Ascii.eqb (Js.toLowerCase_char c) (Js.toLowerCase_char x)
  | AnyChar => negb (Ascii.eqb x "010")
  end.

Fixpoint match_here (p : list atom) (s : string) : bool :=
  match p, s with
  | [], _ => true
  | _ :: _, EmptyString => false
  | a :: p', String x s' => atom_matches a x && match_here p' s'
  end.

(** An unanchored pattern matches when it matches at some offset. *)
Fixpoint search (p : list atom) (s : string) : bool :=
  match_here p s ||
  match s with
  | EmptyString => false
  | String _ s' => search p s'
  end.

(** A compiled pattern: one of the fragment, or the matcher the engine
    made of a pattern beyond it. *)
Inductive t : Type :=
| Fragment (p : list atom)
| Foreign (m : string → bool).

Definition test (r : t) (s : string) : bool :=
  match r with
  | Fragment p => search p s
  | Foreign m => m s
  end.

Section Engine.

(** The engine on the patterns beyond the fragment, under option [i]:
    [None] for a pattern it rejects (an unbalanced parenthesis, say),
    otherwise the strings the pattern matches. *)
Variable engine : string → option (string → bool).

Definition compile (s : string) : option t :=
  match parse s with
  | Some p => Some (Fragment p)
  | None => Foreign <$> engine s
  end.

End Engine.

End Regex.

(** A query filter object: [user] is always present, the other three keys
    only when the handler added them. *)
Record Filter := mkFilter {
  f_user : ObjectId;
  f_completed : option bool;
  f_category : option string;
  f_text : option Regex.t
}.

Definition opt_test {A} (o : option A) (p : A → bool) : bool :=
  match o with None => true | Some a => p a end.

(** A document matches a filter when it matches every key of it. A
    [category] condition is not met by a document without category. *)
Definition matches (f : Filter) (x : Todo.t) : bool :=
  Nat.eqb (Todo.user x) (f_user f)
  && opt_test (f_completed f) (λ b, Bool.eqb (Todo.completed x) b)
  && opt_test (f_category f) (λ c, bool_decide (Todo.category x = Some c))
  && opt_test (f_text f) (λ r, Regex.test r (Todo.text x)).

(** BSON order on an optional date. The store compares values of different
    types by its documented type order, in which Null comes before Date:
    [null] is below every date. This is the order of [sort] and of the
    aggregation operator [$lt] (the aggregation operators compare value and
    type; they do not skip documents whose field is [null]). *)
Definition bson_date_lt (a b : option Z) : bool :=
  match a, b with
  | None, None => false
  | None, Some _ => true
  | Some _, None => false
  | Some x, Some y => (x <? y)%Z
  end.

Definition bson_date_le (a b : option Z) : bool := negb (bson_date_lt b a).

(** [key_le sortBy x y]: [x] is not after [y] on the sort key. Strings are
    compared character by character. *)
Definition key_le (sortBy : string) (x y : Todo.t) : bool :=
  if String.eqb sortBy "deadline" then bson_date_le (Todo.deadline x) (Todo.deadline y)
  else if String.eqb sortBy "priority" then String.leb (Todo.priority x) (Todo.priority y)
  else if String.eqb sortBy "text" then String.leb (Todo.text x) (Todo.text y)
  else (Todo.createdAt x <=? Todo.createdAt y)%Z.

(** The sort specification [{[sortBy]: 1}] or [{[sortBy]: -1}]. *)
Definition sort_rel (sortBy : string) (ascending : bool) : relation Todo.t :=
  λ x y, if ascending then key_le sortBy x y else key_le sortBy y x.

#[global] Instance sort_rel_dec sortBy asc : RelDecision (sort_rel sortBy asc).
Proof. intros x y. unfold sort_rel. destruct asc; apply _. Defined.

(** The model's methods the handlers call. The order the store gives to
    documents with equal sort keys is not specified; the embedding uses
    stdpp's merge sort. *)
Module Model.

Definition find (f : Filter) (c : Collection) : list Todo.t :=
  filter (λ x, matches f x) c.

Definition sort (sortBy : string) (ascending : bool) (l : list Todo.t) : list Todo.t :=
  merge_sort (sort_rel sortBy ascending) l.

Definition skip (n : nat) (l : list Todo.t) : list Todo.t := drop n l.

Definition limit (n : nat) (l : list Todo.t) : list Todo.t := take n l.

Definition countDocuments (f : Filter) (c : Collection) : nat :=
  length (find f c).

(** The result objects of the write operations. *)
Record WriteResult := mkWriteResult {
  r_modifiedCount : option nat;
  r_deletedCount : option nat
}.

(** [updateMany(f, {completed: b})]: every matched document is written
    (the schema's [timestamps] option also sets [updatedAt]), and
    [modifiedCount] counts them. *)
Definition updateMany_completed (f : Filter) (b : bool) (now : Z) (c : Collection)
  : WriteResult * Collection :=
  (mkWriteResult (Some (length (find f c))) None,
   (λ x, if matches f x then Todo.set_completed b now x else x) <$> c).

Definition deleteMany (f : Filter) (c : Collection) : WriteResult * Collection :=
  (mkWriteResult None (Some (length (find f c))),
   filter (λ x, ¬ matches f x) c).

(** [findOne({_id, user})]: the first document with that identifier and
    owner, if any. *)
Definition by_id (id uid : ObjectId) (x : Todo.t) : bool :=
  Nat.eqb (Todo._id x) id && Nat.eqb (Todo.user x) uid.

Definition findOne (id uid : ObjectId) (c : Collection) : option Todo.t :=
  head (filter (λ x, by_id id uid x) c).

(** Writing and removing one document: the first that meets the condition. *)
Fixpoint update_first (p : Todo.t → bool) (u : Todo.t) (c : Collection) : Collection :=
  match c with
  | [] => []
  | x :: r => if p x then u :: r else x :: update_first p u r
  end.

Fixpoint delete_first (p : Todo.t → bool) (c : Collection) : Collection :=
  match c with
  | [] => []
  | x :: r => if p x then r else x :: delete_first p r
  end.

(** [doc.save()] in three steps: validation, time stamp, write.

    Validation runs the schema validators. Every stored document passed
    them when it was written (the bulk update writes [completed] only,
    which has none), so a save can fail only on a path the handler
    assigned a new value to; [validate] checks those. *)
Definition validate (loaded u : Todo.t) : bool :=
  (String.eqb (Todo.text u) (Todo.text loaded) || Todo.valid_text (Todo.text u))
  && (String.eqb (Todo.priority u) (Todo.priority loaded)
      || Todo.valid_priority (Todo.priority u))
  && (bool_decide (Todo.category u = Todo.category loaded)
      || Todo.valid_category (Todo.category u)).

(** With the schema's [timestamps], [updatedAt] moves only when the
    document differs from the one that was loaded. *)
Definition stamp (now : Z) (loaded u : Todo.t) : Todo.t :=
  if decide (u = loaded) then loaded
  else {| Todo._id := Todo._id u; Todo.user := Todo.user u;
          Todo.text := Todo.text u; Todo.completed := Todo.completed u;
          Todo.deadline := Todo.deadline u; Todo.priority := Todo.priority u;
          Todo.category := Todo.category u; Todo.createdAt := Todo.createdAt u;
          Todo.updatedAt := now |}.

(** The stored document with the identifier of [u] becomes [u]. *)
Definition save (u : Todo.t) (c : Collection) : Collection :=
  update_first (λ x, Nat.eqb (Todo._id x) (Todo._id u)) u c.

(** [findOneAndDelete({_id, user})] *)
Definition findOneAndDelete (id uid : ObjectId) (c : Collection)
  : option Todo.t * Collection :=
  match findOne id uid c with
  | Some x => (Some x, delete_first (by_id id uid) c)
  | None => (None, c)
  end.

End Model.

(** The row the statistics pipeline produces. *)
Module Stats.

Record t := mk {
  total : nat;
  completed : nat;
  pending : nat;
  overdue : nat
}.

Definition zero : t := mk 0 0 0 0.

End Stats.

(** ** The handlers: [backend/routes/todos.js] *)

Module Routes.

Abbreviation Query := (gmap string string).
Abbreviation Body := (gmap string Js.value).

(** *** The validators of express-validator that the routes chain *)

Definition isInt (min : Z) (max : option Z) (s : string) : bool :=
  match Js.int_of_string s with
  | Some n => (min <=? n)%Z && opt_test max (λ m, (n <=? m)%Z)
  | None => false
  end.

Definition isIn (options : list string) (s : string) : bool :=
  bool_decide (s ∈ options).

Definition isBoolean (s : string) : bool :=
  isIn ["true"; "false"; "1"; "0"] s.

Definition isLength_max (n : nat) (s : string) : bool :=
  Nat.leb (String.length s) n.

(** *** GET /api/todos *)

(** [.optional()] skips a chain when the parameter is [undefined]; the
    chain of [search] checks the length of the trimmed string. *)
Definition validate_list (q : Query) : bool :=
  opt_test (q !! "page") (isInt 1 None)
  && opt_test (q !! "limit") (isInt 1 (Some 100%Z))
  && opt_test (q !! "completed") isBoolean
  && opt_test (q !! "search") (λ s, isLength_max 100 (Js.trim s))
  && opt_test (q !! "sortBy") (isIn ["createdAt"; "deadline"; "priority"; "text"])
  && opt_test (q !! "sortOrder") (isIn ["asc"; "desc"]).

Section WithFramework.

(** Two things the sources do not fix are parameters of the handler.

    The first is whether the [trim()] of the [search] chain reaches the
    handler. express-validator stores a sanitized value into [req.query].
    Under Express 4 [req.query] is the object the handler reads later, and
    the handler sees the trimmed string; under Express 5 it is a getter
    that parses the URL on every access, and the handler sees the string
    as it was sent. No source file pins the version. *)
Variable query_writable : bool.

(** The second is the store's pattern engine beyond the embedded fragment
    (see [Regex.compile]). *)
Variable engine : string → option (string → bool).

Definition sanitize_list (q : Query) : Query :=
  if query_writable then
    match q !! "search" with
    | Some s => <["search" := Js.trim s]> q
    | None => q
    end
  else q.

(** [if (req.query.k)]: present and not the empty string. *)
Definition given (x : option string) : option string :=
  match x with
  | Some s => if Js.nonempty s then Some s else None
  | None => None
  end.

(** The filter object, with the pattern of its [$regex] condition
    compiled: [None] when the store rejects the pattern, in which case
    [find] throws. *)
Definition build_filter (uid : ObjectId) (query : Query) : option Filter :=
  let completed := (λ s, String.eqb s "true") <$> query !! "completed" in
  let category := given (query !! "category") in
  match given (query !! "search") with
  | Some s => mkFilter uid completed category ∘ Some <$> Regex.compile engine s
  | None => Some (mkFilter uid completed category None)
  end.

(** [Math.ceil(a / b)] on integers, [b] positive. *)
Definition ceil_div (a b : Z) : Z := (- ((- a) / b))%Z.

(** The handler. A query the store throws on is answered by the [catch]
    with 500. *)
Definition get_todos (uid : ObjectId) (query0 : Query) (c : Collection)
  : Reply (list Todo.t) :=
  if negb (validate_list query0) then reply_error 400 else
  let query := sanitize_list query0 in
  let page := Js.parseInt_or (query !! "page") 1 in
  let limit := Js.parseInt_or (query !! "limit") 10 in
  let skip := ((page - 1) * limit)%Z in
  match build_filter uid query with
  | None => reply_error 500
  | Some filter =>
      let sortBy := default "createdAt" (given (query !! "sortBy")) in
      let sortOrder := bool_decide (query !! "sortOrder" = Some "asc") in
      let todos :=
        Model.limit (Z.to_nat limit)
          (Model.skip (Z.to_nat skip)
             (Model.sort sortBy sortOrder (Model.find filter c))) in
      let total := Model.countDocuments filter c in
      let totalPages := ceil_div (Z.of_nat total) limit in
      mkReply 200 true (Some todos)
        (Some (mkPagination page totalPages
                 (page <? totalPages)%Z (1 <? page)%Z total))
        None
  end.

End WithFramework.

(** *** GET /api/todos/stats/summary *)

(** [$cond: [b, x, y]] *)
Definition cond (b : bool) (x y : nat) : nat := if b then x else y.

(** One document folded into the [$group] accumulators. The [overdue]
    condition is [$and: [{$lt: ['$deadline', now]}, {$eq: ['$completed',
    false]}]]; the aggregation [$lt] compares in BSON order. *)
Definition group_step (now : Z) (acc : Stats.t) (x : Todo.t) : Stats.t :=
  {| Stats.total := Stats.total acc + 1;
     Stats.completed := Stats.completed acc + cond (Todo.completed x) 1 0;
     Stats.pending := Stats.pending acc + cond (Todo.completed x) 0 1;
     Stats.overdue :=
       Stats.overdue acc
       + cond (bson_date_lt (Todo.deadline x) (Some now)
               && Bool.eqb (Todo.completed x) false) 1 0 |}.

(** The pipeline [[$match {user}, $group {_id: null, ...}]]: one row, or
    none when nothing matched. *)
Definition aggregate_stats (uid : ObjectId) (now : Z) (c : Collection)
  : list Stats.t :=
  match filter (λ x, Todo.user x = uid) c with
  | [] => []
  | docs => [foldl (group_step now) Stats.zero docs]
  end.

Definition get_stats (uid : ObjectId) (now : Z) (c : Collection) : Reply Stats.t :=
  let stats := aggregate_stats uid now c in
  let result := default Stats.zero (stats !! 0) in
  mkReply 200 true (Some result) None None.

(** *** PATCH /api/todos/bulk *)

(** [a || b || 0] on counts that may be [undefined]. *)
Definition or_count (a b : option nat) : nat :=
  match a with
  | Some (S n) => S n
  | _ => match b with Some (S n) => S n | _ => 0 end
  end.

Definition by_user (uid : ObjectId) (completed : option bool) : Filter :=
  mkFilter uid completed None None.

(** The [switch]: no case for a value that is not one of the three
    strings, and then [result] stays [undefined]. *)
Definition bulk_switch (uid : ObjectId) (now : Z) (action : Js.value) (c : Collection)
  : option (Model.WriteResult * Collection) :=
  match action with
  | Js.VStr a =>
      if String.eqb a "complete-all" then
        Some (Model.updateMany_completed (by_user uid (Some false)) true now c)
      else if String.eqb a "delete-completed" then
        Some (Model.deleteMany (by_user uid (Some true)) c)
      else if String.eqb a "delete-all" then
        Some (Model.deleteMany (by_user uid None) c)
      else None
  | _ => None
  end.

Definition patch_bulk (uid : ObjectId) (now : Z) (body : Body) (c : Collection)
  : Reply unit * Collection :=
  let action := body !! "action" in
  if negb (isIn ["complete-all"; "delete-completed"; "delete-all"]
             (from_option Js.toString EmptyString action))
  then (reply_error 400, c)
  else
    match action ≫= (λ a, bulk_switch uid now a c) with
    | Some (result, c') =>
        (mkReply 200 true None None
           (Some (or_count (Model.r_modifiedCount result)
                           (Model.r_deletedCount result))),
         c')
    | None => (reply_error 500, c)
    end.

(** *** POST /api/todos *)

Section WithDates.

(** Two library functions on date strings are left abstract:
    validator.js' [isISO8601] and the parser behind [new Date(string)],
    which gives [None] for an Invalid Date. *)
Variable isISO8601 : string → bool.
Variable Date_parse : string → option Z.

(** [new Date(v)] *)
Definition new_Date (v : Js.value) : option Z :=
  match v with
  | Js.VStr s => Date_parse s
  | Js.VNum n _ =>
      if (Z.abs n <=? 8640000000000000)%Z then Some n else None
  | Js.VBool b => Some (if b then 1 else 0)%Z
  | Js.VNull => Some 0%Z
  end.

Definition validate_create (body : Body) : bool :=
  let text := Js.trim (from_option Js.toString EmptyString (body !! "text")) in
  Js.nonempty text
  && isLength_max 500 text
  && opt_test (body !! "deadline") (λ v, isISO8601 (Js.toString v))
  && opt_test (body !! "priority")
       (λ v, isIn ["low"; "medium"; "high"] (Js.toString v))
  && opt_test (body !! "category")
       (λ v, isLength_max 50 (Js.trim (Js.toString v))).

(** [text] and [category] are trimmed in place by their chains. *)
Definition sanitize_create (body : Body) : Body :=
  let body1 :=
    <["text" := Js.VStr (Js.trim (from_option Js.toString EmptyString (body !! "text")))]> body in
  match body !! "category" with
  | Some v => <["category" := Js.VStr (Js.trim (Js.toString v))]> body1
  | None => body1
  end.

(** [if (v) ...]: the key is present and its value truthy. *)
Definition given_value (x : option Js.value) : option Js.value :=
  match x with
  | Some v => if Js.truthy v then Some v else None
  | None => None
  end.

(** The handler destructures [text], [deadline], [priority] and
    [category] from the body and builds [todoData] from them and the
    caller's identity. [Todo.create] rejects an Invalid Date and a
    document that fails a schema validator; the handler's [catch] answers
    both with 500. *)
Definition post_todo (uid fresh : ObjectId) (now : Z) (body0 : Body) (c : Collection)
  : Reply Todo.t * Collection :=
  if negb (validate_create body0) then (reply_error 400, c) else
  let body := sanitize_create body0 in
  let text := body !! "text" in
  let deadline : option Js.value := body !! "deadline" in
  let priority := body !! "priority" in
  let category := body !! "category" in
  let todoData (d : option Z) :=
    {| Todo.d_text := from_option Js.toString EmptyString text;
       Todo.d_user := uid;
       Todo.d_completed := None;
       Todo.d_deadline := d;
       Todo.d_priority := Js.toString <$> given_value priority;
       Todo.d_category := Js.toString <$> given_value category |} in
  let created (d : option Z) :=
    match Todo.create fresh now (todoData d) with
    | Some todo => (mkReply 201 true (Some todo) None None, (c ++ [todo])%list)
    | None => (reply_error 500, c)
    end in
  match given_value deadline with
  | Some v =>
      match new_Date v with
      | Some d => created (Some d)
      | None => (reply_error 500, c)
      end
  | None => created None
  end.

(** *** PUT /api/todos/:id *)

(** Mongoose's cast of a value assigned to a Boolean path. ([null] is
    no boolean; the validator of [completed] never lets it through.) *)
Definition castBoolean (v : Js.value) : option bool :=
  match v with
  | Js.VBool b => Some b
  | Js.VNum n _ =>
      if (n =? 1)%Z then Some true else if (n =? 0)%Z then Some false else None
  | Js.VStr s =>
      if isIn ["true"; "1"; "yes"] s then Some true
      else if isIn ["false"; "0"; "no"] s then Some false
      else None
  | Js.VNull => None
  end.

(** The custom validator of [deadline]: [null] and the empty string pass,
    anything else must not be an Invalid Date. *)
Definition valid_deadline (v : Js.value) : bool :=
  match v with
  | Js.VNull => true
  | Js.VStr EmptyString => true
  | _ => bool_decide (is_Some (new_Date v))
  end.

Definition validate_update (body : Body) : bool :=
  opt_test (body !! "text")
    (λ v, Js.nonempty (Js.trim (Js.toString v))
          && isLength_max 500 (Js.trim (Js.toString v)))
  && opt_test (body !! "completed") (λ v, isBoolean (Js.toString v))
  && opt_test (body !! "deadline") valid_deadline
  && opt_test (body !! "priority")
       (λ v, isIn ["low"; "medium"; "high"] (Js.toString v))
  && opt_test (body !! "category")
       (λ v, isLength_max 50 (Js.trim (Js.toString v))).

Definition trimmed (v : Js.value) : Js.value :=
  Js.VStr (Js.trim (Js.toString v)).

(** [text] and [category] are trimmed in place when they were sent. *)
Definition sanitize_update (body : Body) : Body :=
  let body1 :=
    match body !! "text" with
    | Some v => <["text" := trimmed v]> body
    | None => body
    end in
  match body !! "category" with
  | Some v => <["category" := trimmed v]> body1
  | None => body1
  end.

(** The five assignments [if (k !== undefined) todo.k = ...]. The schema
    trims [text] and [category] and casts [completed]; a value it cannot
    cast gives [None]. *)
Definition assign (body : Body) (x : Todo.t) : option Todo.t :=
  completed ←
    match body !! "completed" with
    | Some v => castBoolean v
    | None => Some (Todo.completed x)
    end;
  deadline ←
    match body !! "deadline" with
    | Some Js.VNull => Some None
    | Some (Js.VStr EmptyString) => Some None
    | Some v => Some <$> new_Date v
    | None => Some (Todo.deadline x)
    end;
  Some {| Todo._id := Todo._id x;
          Todo.user := Todo.user x;
          Todo.text :=
            match body !! "text" with
            | Some v => Js.trim (Js.toString v)
            | None => Todo.text x
            end;
          Todo.completed := completed;
          Todo.deadline := deadline;
          Todo.priority :=
            match body !! "priority" with
            | Some v => Js.toString v
            | None => Todo.priority x
            end;
          Todo.category :=
            match body !! "category" with
            | Some v => Some (Js.trim (Js.toString v))
            | None => Todo.category x
            end;
          Todo.createdAt := Todo.createdAt x;
          Todo.updatedAt := Todo.updatedAt x |}.

(** The handler: validation first, then the owner-scoped lookup. [id] is
    [None] for a path parameter that is no identifier: the lookup throws a
    CastError, answered like a missing document. A document that cannot
    be saved, because a value cannot be cast or a schema validator fails,
    is answered with 500. *)
Definition put_todo (id : option ObjectId) (uid : ObjectId) (now : Z)
    (body0 : Body) (c : Collection) : Reply Todo.t * Collection :=
  if negb (validate_update body0) then (reply_error 400, c) else
  let body := sanitize_update body0 in
  match id ≫= (λ i, Model.findOne i uid c) with
  | None => (reply_error 404, c)
  | Some todo =>
      match assign body todo with
      | Some u =>
          if Model.validate todo u then
            let saved := Model.stamp now todo u in
            (mkReply 200 true (Some saved) None None, Model.save saved c)
          else (reply_error 500, c)
      | None => (reply_error 500, c)
      end
  end.

End WithDates.

(** *** GET /api/todos/:id and DELETE /api/todos/:id *)

Definition get_todo (id : option ObjectId) (uid : ObjectId) (c : Collection)
  : Reply Todo.t :=
  match id ≫= (λ i, Model.findOne i uid c) with
  | Some todo => mkReply 200 true (Some todo) None None
  | None => reply_error 404
  end.

Definition delete_todo (id : option ObjectId) (uid : ObjectId) (c : Collection)
  : Reply unit * Collection :=
  match id with
  | Some i =>
      match Model.findOneAndDelete i uid c with
      | (Some _, c') => (mkReply 200 true None None None, c')
      | (None, _) => (reply_error 404, c)
      end
  | None => (reply_error 404, c)
  end.

End Routes.

(** ** The clients: the components of [backend/config/db.js] *)

(** The urgency bucket [getDeadlineStatus] returns. *)
Inductive DeadlineStatus : Type :=
| none
| overdue
| today
| soon
| normal.

#[global] Instance DeadlineStatus_eq_dec : EqDecision DeadlineStatus.
Proof. solve_decision. Defined.

(** *** The offline component [App] *)

Module App.

Record todo := mkTodo {
  id : Z;
  text : string;
  completed : bool;
  deadline : option Z;
  createdAt : Z
}.

Record state := mkState {
  todos : list todo;
  newTodo : string;
  newDeadline : string;
  newTime : string;
  filter : string;
  editingId : option Z;
  editText : string;
  editDeadline : string;
  editTime : string;
  sortBy : string
}.

Section Render.

(** [const now = new Date()], taken once per render. *)
Variable now : Z.

Definition isOverdue (deadline : option Z) : bool :=
  match deadline with
  | None => false
  | Some deadlineDate => (deadlineDate <? now)%Z
  end.

Definition getDeadlineStatus (deadline : option Z) (completed : bool)
  : DeadlineStatus :=
  match deadline with
  | None => none
  | Some deadlineDate =>
      if completed then none else
      let diffTime := (deadlineDate - now)%Z in
      let diffHours := (inject_Z diffTime / inject_Z (1000 * 60 * 60))%Q in
      let diffDays := Qceiling (inject_Z diffTime / inject_Z (1000 * 60 * 60 * 24)) in
      if (diffTime <? 0)%Z then overdue
      else if Qle_bool diffHours (inject_Z 24) && (diffDays <=? 1)%Z then today
      else if (diffDays <=? 3)%Z then soon
      else normal
  end.

(** The predicate of [filteredTodos]. *)
Definition filter_pred (filter : string) (t : todo) : bool :=
  if String.eqb filter "active" then negb (completed t)
  else if String.eqb filter "completed" then completed t
  else if String.eqb filter "overdue" then isOverdue (deadline t) && negb (completed t)
  else true.

End Render.

Section Editing.

(** [new Date(s).toISOString()] for a string [s]: [None] when the date
    is invalid, in which case [toISOString] throws. *)
Variable Date_parse : string → option Z.

(** The deadline of the date and time inputs: [Some None] for no date,
    [None] when composing it throws. *)
Definition compose_deadline (date time : string) : option (option Z) :=
  if Js.nonempty date then
    Some <$> (if Js.nonempty time
              then Date_parse (date +:+ "T" +:+ time)
              else Date_parse (date +:+ "T23:59"))
  else Some None.

Definition reset_edit (s : state) : state :=
  {| todos := todos s; newTodo := newTodo s; newDeadline := newDeadline s;
     newTime := newTime s; filter := filter s;
     editingId := None; editText := EmptyString; editDeadline := EmptyString; editTime := EmptyString;
     sortBy := sortBy s |}.

Definition set_todos (l : list todo) (s : state) : state :=
  {| todos := l; newTodo := newTodo s; newDeadline := newDeadline s;
     newTime := newTime s; filter := filter s;
     editingId := editingId s; editText := editText s;
     editDeadline := editDeadline s; editTime := editTime s;
     sortBy := sortBy s |}.

(** An exception of [toISOString] leaves the handler before any setter
    ran: the state stays as it was. *)
Definition saveEdit (s : state) : state :=
  if Js.nonempty (Js.trim (editText s)) then
    match compose_deadline (editDeadline s) (editTime s) with
    | Some deadlineDateTime =>
        reset_edit
          (set_todos
             ((λ t, if bool_decide (Some (id t) = editingId s)
                    then {| id := id t; text := Js.trim (editText s);
                            completed := completed t;
                            deadline := deadlineDateTime;
                            createdAt := createdAt t |}
                    else t) <$> todos s)
             s)
    | None => s
    end
  else reset_edit s.

Definition cancelEdit (s : state) : state := reset_edit s.

End Editing.

Section Tasks.

Variable Date_parse : string → option Z.

Definition reset_new (l : list todo) (s : state) : state :=
  {| todos := l; newTodo := EmptyString; newDeadline := EmptyString;
     newTime := EmptyString; filter := filter s;
     editingId := editingId s; editText := editText s;
     editDeadline := editDeadline s; editTime := editTime s;
     sortBy := sortBy s |}.

(** [stamp] is [Date.now()] and [created] the instant of [new Date()]. *)
Definition addTodo (stamp created : Z) (s : state) : state :=
  if Js.nonempty (Js.trim (newTodo s)) then
    match compose_deadline Date_parse (newDeadline s) (newTime s) with
    | Some deadlineDateTime =>
        let todo := {| id := stamp; text := Js.trim (newTodo s);
                       completed := false; deadline := deadlineDateTime;
                       createdAt := created |} in
        reset_new (todo :: todos s) s
    | None => s
    end
  else s.

Definition toggleTodo (i : Z) (s : state) : state :=
  set_todos
    ((λ t, if bool_decide (id t = i)
           then {| id := id t; text := text t; completed := negb (completed t);
                   deadline := deadline t; createdAt := createdAt t |}
           else t) <$> todos s)
    s.

Definition deleteTodo (i : Z) (s : state) : state :=
  set_todos (base.filter (λ t, id t ≠ i) (todos s)) s.

End Tasks.

(** The setters of the filter buttons and of the sort menu. *)
Definition setFilter (f : string) (s : state) : state :=
  {| todos := todos s; newTodo := newTodo s; newDeadline := newDeadline s;
     newTime := newTime s; filter := f;
     editingId := editingId s; editText := editText s;
     editDeadline := editDeadline s; editTime := editTime s;
     sortBy := sortBy s |}.

Definition setSortBy (k : string) (s : state) : state :=
  {| todos := todos s; newTodo := newTodo s; newDeadline := newDeadline s;
     newTime := newTime s; filter := filter s;
     editingId := editingId s; editText := editText s;
     editDeadline := editDeadline s; editTime := editTime s;
     sortBy := k |}.

Section Views.

Variable now : Z.

(** The [priority] table of the comparator. *)
Definition priority (st : DeadlineStatus) : Z :=
  match st with
  | overdue => 0
  | today => 1
  | soon => 2
  | normal => 3
  | none => 4
  end.

(** The comparator of [sortedTodos]. *)
Definition compare (sortBy : string) (a b : todo) : Z :=
  if String.eqb sortBy "deadline" then
    match deadline a, deadline b with
    | None, None => createdAt b - createdAt a
    | None, Some _ => 1
    | Some _, None => -1
    | Some da, Some db => da - db
    end
  else if String.eqb sortBy "priority" then
    priority (getDeadlineStatus now (deadline a) (completed a))
    - priority (getDeadlineStatus now (deadline b) (completed b))
  else createdAt b - createdAt a.

Definition sortedTodos (s : state) : list todo :=
  Js.sort (compare (sortBy s)) (todos s).

Definition filteredTodos (s : state) : list todo :=
  base.filter (λ t, filter_pred now (filter s) t) (sortedTodos s).

Definition completedCount (s : state) : nat :=
  length (base.filter (λ t, completed t) (todos s)).

Definition activeCount (s : state) : nat :=
  length (base.filter (λ t, negb (completed t)) (todos s)).

Definition overdueCount (s : state) : nat :=
  length (base.filter (λ t, isOverdue now (deadline t) && negb (completed t)) (todos s)).

(** The two locale renderings of an instant, [toLocaleTimeString] with
    hour and minute and [toLocaleDateString], are left abstract. *)
Variable timeStr : Z → string.
Variable dateStr : Z → string.

(** The label of a deadline. [Math.abs] of the rounded hours prints as a
    plain numeral. *)
Definition formatDeadline (deadline : option Z) : string :=
  match deadline with
  | None => EmptyString
  | Some date =>
      let diffTime := (date - now)%Z in
      let diffHours := Qceiling (inject_Z diffTime / inject_Z (1000 * 60 * 60)) in
      if (diffTime <? 0)%Z then
        if (-24 <=? diffHours)%Z
        then timeStr date +:+ " (" +:+ pretty (Z.abs diffHours) +:+ "h ago)"
        else dateStr date +:+ " " +:+ timeStr date
      else if (diffHours <=? 24)%Z then
        if (diffHours =? 0)%Z then timeStr date +:+ " (now)"
        else timeStr date +:+ " (" +:+ pretty diffHours +:+ "h left)"
      else dateStr date +:+ " " +:+ timeStr date
  end.

End Views.

End App.

(** *** The backend-integrated component [TodoApp] *)

Module TodoApp.

(** The tasks are the documents the API returns. *)
Record state := mkState {
  todos : list Todo.t;
  newTodo : string;
  newDeadline : string;
  newTime : string;
  filter : string;
  editingId : option ObjectId;
  editText : string;
  editDeadline : string;
  editTime : string;
  sortBy : string;
  loading : bool;
  error : string
}.

(** The body of the PUT request of [saveEdit]. *)
Record updateData := mkUpdateData {
  u_text : string;
  u_deadline : option Z
}.

Section Render.

Variable now : Z.

Definition isOverdue (deadline : option Z) : bool :=
  match deadline with
  | None => false
  | Some deadlineDate => (deadlineDate <? now)%Z
  end.

Definition getDeadlineStatus (deadline : option Z) (completed : bool)
  : DeadlineStatus :=
  match deadline with
  | None => none
  | Some deadlineDate =>
      if completed then none else
      let diffTime := (deadlineDate - now)%Z in
      let diffHours := (inject_Z diffTime / inject_Z (1000 * 60 * 60))%Q in
      let diffDays := Qceiling (inject_Z diffTime / inject_Z (1000 * 60 * 60 * 24)) in
      if (diffTime <? 0)%Z then overdue
      else if Qle_bool diffHours (inject_Z 24) && (diffDays <=? 1)%Z then today
      else if (diffDays <=? 3)%Z then soon
      else normal
  end.

Definition filter_pred (filter : string) (t : Todo.t) : bool :=
  if String.eqb filter "active" then negb (Todo.completed t)
  else if String.eqb filter "completed" then Todo.completed t
  else if String.eqb filter "overdue"
  then isOverdue (Todo.deadline t) && negb (Todo.completed t)
  else true.

End Render.

Section Editing.

Variable Date_parse : string → option Z.

(** [api.put(`/todos/${editingId}`, updateData)]: the document of the
    reply, or [None] when the request fails and the promise rejects. *)
Variable api_put : option ObjectId → updateData → option Todo.t.

Definition compose_deadline (date time : string) : option (option Z) :=
  if Js.nonempty date then
    Some <$> (if Js.nonempty time
              then Date_parse (date +:+ "T" +:+ time)
              else Date_parse (date +:+ "T23:59"))
  else Some None.

Definition set_error (msg : string) (s : state) : state :=
  {| todos := todos s; newTodo := newTodo s; newDeadline := newDeadline s;
     newTime := newTime s; filter := filter s;
     editingId := editingId s; editText := editText s;
     editDeadline := editDeadline s; editTime := editTime s;
     sortBy := sortBy s; loading := loading s; error := msg |}.

(** The setters of the success path: the list, the four editing fields
    and the error. *)
Definition saved (l : list Todo.t) (s : state) : state :=
  {| todos := l; newTodo := newTodo s; newDeadline := newDeadline s;
     newTime := newTime s; filter := filter s;
     editingId := None; editText := EmptyString; editDeadline := EmptyString; editTime := EmptyString;
     sortBy := sortBy s; loading := loading s; error := EmptyString |}.

(** Everything happens inside [if (editText.trim() !== '')], and inside
    its [try]: a throwing [toISOString] and a rejected request both end
    in the [catch], which only sets the error. *)
Definition saveEdit (s : state) : state :=
  if Js.nonempty (Js.trim (editText s)) then
    match compose_deadline (editDeadline s) (editTime s) with
    | Some deadlineDateTime =>
        let data := mkUpdateData (Js.trim (editText s)) deadlineDateTime in
        match api_put (editingId s) data with
        | Some response =>
            saved ((λ t, if bool_decide (Some (Todo._id t) = editingId s)
                         then response else t) <$> todos s) s
        | None => set_error "Failed to update todo. Please try again." s
        end
    | None => set_error "Failed to update todo. Please try again." s
    end
  else s.

Definition cancelEdit (s : state) : state :=
  {| todos := todos s; newTodo := newTodo s; newDeadline := newDeadline s;
     newTime := newTime s; filter := filter s;
     editingId := None; editText := EmptyString; editDeadline := EmptyString; editTime := EmptyString;
     sortBy := sortBy s; loading := loading s; error := error s |}.

End Editing.

(** The body of the POST request of [addTodo]; [p_deadline] is [None] when
    the key is not sent. *)
Record todoData := mkTodoData {
  p_text : string;
  p_deadline : option Z
}.

Section Requests.

Variable Date_parse : string → option Z.

(** The four requests, each giving the payload of the reply, or failing
    (the promise rejects: network error or a status outside 2xx). *)
Variable api_get : option (list Todo.t).
Variable api_post : todoData → option Todo.t.
Variable api_put_completed : ObjectId → bool → option Todo.t.
Variable api_delete : ObjectId → bool.

Definition with_todos (l : list Todo.t) (ld : bool) (msg : string) (s : state) : state :=
  {| todos := l; newTodo := newTodo s; newDeadline := newDeadline s;
     newTime := newTime s; filter := filter s;
     editingId := editingId s; editText := editText s;
     editDeadline := editDeadline s; editTime := editTime s;
     sortBy := sortBy s; loading := ld; error := msg |}.

(** The state once the promise of [fetchTodos] has settled. *)
Definition fetchTodos (s : state) : state :=
  match api_get with
  | Some l => with_todos l false EmptyString s
  | None => with_todos (todos s) false "Failed to load todos. Please try again." s
  end.

Definition added (l : list Todo.t) (s : state) : state :=
  {| todos := l; newTodo := EmptyString; newDeadline := EmptyString;
     newTime := EmptyString; filter := filter s;
     editingId := editingId s; editText := editText s;
     editDeadline := editDeadline s; editTime := editTime s;
     sortBy := sortBy s; loading := loading s; error := EmptyString |}.

Definition addTodo (s : state) : state :=
  if Js.nonempty (Js.trim (newTodo s)) then
    match compose_deadline Date_parse (newDeadline s) (newTime s) with
    | Some deadlineDateTime =>
        match api_post (mkTodoData (Js.trim (newTodo s)) deadlineDateTime) with
        | Some response => added (response :: todos s) s
        | None => set_error "Failed to add todo. Please try again." s
        end
    | None => set_error "Failed to add todo. Please try again." s
    end
  else s.

(** [todos.find] gives [undefined] for an unknown identifier, and reading
    [completed] of it throws inside the [try]. *)
Definition toggleTodo (i : ObjectId) (s : state) : state :=
  match head (base.filter (λ t, Todo._id t = i) (todos s)) with
  | Some todo =>
      match api_put_completed i (negb (Todo.completed todo)) with
      | Some response =>
          with_todos
            ((λ t, if bool_decide (Todo._id t = i) then response else t) <$> todos s)
            (loading s) EmptyString s
      | None => set_error "Failed to update todo. Please try again." s
      end
  | None => set_error "Failed to update todo. Please try again." s
  end.

Definition deleteTodo (i : ObjectId) (s : state) : state :=
  if api_delete i
  then with_todos (base.filter (λ t, Todo._id t ≠ i) (todos s)) (loading s) EmptyString s
  else set_error "Failed to delete todo. Please try again." s.

End Requests.

End TodoApp.

(** ** Vocabulary of the specification *)

(** "Case-insensitive substring": the folded needle occurs in the folded
    text, somewhere. *)
Definition ci_substring (needle hay : string) : Prop :=
  ∃ pre post, Js.toLowerCase hay = pre +:+ Js.toLowerCase needle +:+ post.

(** The pattern that reads every character of [s] literally. *)
Fixpoint literal (s : string) : list Regex.atom :=
  match s with
  | EmptyString => []
  | String c r => Regex.Lit c :: literal r
  end.

(** A search string without pattern metacharacters. *)
Fixpoint plain (s : string) : bool :=
  match s with
  | EmptyString => true
  | String c r => negb (Regex.is_meta c) && plain r
  end.

(** The counts of the statistics, as the specification words them. *)
Definition owned (uid : ObjectId) (c : Collection) : list Todo.t :=
  filter (λ x, Todo.user x = uid) c.

Definition count_completed (l : list Todo.t) : nat :=
  length (filter (λ x, Todo.completed x = true) l).

Definition count_pending (l : list Todo.t) : nat :=
  length (filter (λ x, Todo.completed x = false) l).

(** Not completed, deadline present and strictly before [now]. *)
Definition is_overdue_task (now : Z) (x : Todo.t) : Prop :=
  Todo.completed x = false ∧ ∃ d, Todo.deadline x = Some d ∧ (d < now)%Z.

#[global] Instance is_overdue_task_dec now x : Decision (is_overdue_task now x).
Proof.
  unfold is_overdue_task.
  destruct (Todo.deadline x) as [d|].
  - destruct (decide (Todo.completed x = false)) as [Hc|Hc].
    + destruct (decide (d < now)%Z) as [Hd|Hd].
      * left. split; [exact Hc | exists d; split; [reflexivity | exact Hd]].
      * right. intros [_ [d' [Heq Hlt]]]. inversion Heq. subst. contradiction.
    + right. intros [Hc' _]. contradiction.
  - right. intros [_ [d' [Heq _]]]. discriminate.
Defined.

Definition count_overdue (now : Z) (l : list Todo.t) : nat :=
  length (filter (is_overdue_task now) l).

(** What the pipeline's [overdue] accumulator counts. *)
Definition counted_overdue (now : Z) (x : Todo.t) : Prop :=
  Todo.completed x = false ∧ ∀ d, Todo.deadline x = Some d → (d < now)%Z.

#[global] Instance counted_overdue_dec now x : Decision (counted_overdue now x).
Proof.
  unfold counted_overdue.
  destruct (decide (Todo.completed x = false)) as [Hc|Hc].
  - destruct (Todo.deadline x) as [d|].
    + destruct (decide (d < now)%Z) as [Hd|Hd].
      * left. split; [exact Hc|]. intros d' Heq. inversion Heq. subst. exact Hd.
      * right. intros [_ H]. apply Hd, H. reflexivity.
    + left. split; [exact Hc|]. intros d' Heq. discriminate.
  - right. intros [Hc' _]. contradiction.
Defined.

(** "ceil(remaining / 24h)", the whole days a remaining time rounds up to. *)
Definition ceil_days (remaining : Z) : Z :=
  Qceiling (inject_Z remaining / inject_Z 86400000).

(** The bodies of the bulk requests. *)
Definition bulk_body (action : string) : Routes.Body :=
  {[ "action" := Js.VStr action ]}.

Definition bulk_reply (n : nat) : Reply unit :=
  mkReply 200 true None None (Some n).

(** What [complete-all] does to one document. *)
Definition complete_one (uid : ObjectId) (now : Z) (x : Todo.t) : Todo.t :=
  if matches (Routes.by_user uid (Some false)) x
  then Todo.set_completed true now x else x.

(** Sample data of the scenarios: one owner, [alice], and another. *)
Definition alice : ObjectId := 1.
Definition bob : ObjectId := 2.

Definition an_instant : Z := 1700000000000.
Definition a_day : Z := 86400000.

Definition task_A : Todo.t :=
  Todo.mk 11 alice "Buy milk" false None "medium" None
    (an_instant - 2 * a_day)%Z (an_instant - 2 * a_day)%Z.

Definition task_B : Todo.t :=
  Todo.mk 12 alice "File taxes" false (Some (an_instant - a_day)%Z) "medium" None
    (an_instant - 2 * a_day)%Z (an_instant - 2 * a_day)%Z.

Definition task_C : Todo.t :=
  Todo.mk 13 alice "abc" true None "high" (Some "work")
    (an_instant - a_day)%Z (an_instant - a_day)%Z.

Definition task_D : Todo.t :=
  Todo.mk 14 bob "Read" false None "low" None
    (an_instant - a_day)%Z (an_instant - a_day)%Z.

Definition sample_tasks : Collection := [task_A; task_B; task_C; task_D].

Definition page_two_of_two : Routes.Query :=
  {[ "page" := "2"; "limit" := "2" ]}.

(** A create request that also sends [completed: true]. *)
Definition eager_body : Routes.Body :=
  {[ "text" := Js.VStr "Buy milk"; "completed" := Js.VBool true ]}.

Definition no_dates : string → option Z := λ _, None.
Definition any_iso : string → bool := λ _, true.

(** Both clients in the middle of an edit whose text is only blanks. *)
Definition offline_task : App.todo :=
  App.mkTodo 21 "Buy milk" false (Some (an_instant + a_day)%Z) an_instant.

Definition offline_editing_blank : App.state :=
  App.mkState [offline_task] EmptyString EmptyString EmptyString "all" (Some 21%Z) "   " "2023-11-15" "10:00"
    "created".

Definition editing_blank : TodoApp.state :=
  TodoApp.mkState [task_A] EmptyString EmptyString EmptyString "all" (Some 11) "   " EmptyString EmptyString "created" false EmptyString.

(** A search for the three characters a, dot, c. *)
Definition dot_query : Routes.Query := {[ "search" := "a.c" ]}.

(** A search for the four characters a, backslash, dot, c, and a task
    whose text is these four characters. *)
Definition escaped_query : Routes.Query := {[ "search" := "a\.c" ]}.

Definition task_E : Todo.t :=
  Todo.mk 15 1 "a\.c" false None "medium" None 1699999999000 1699999999000.

(** Two engines for the examples: one that takes no pattern beyond the
    embedded fragment, and one that knows the lone anchor [^], which every
    string matches, and nothing else. *)
Definition fragment_only : string → option (string → bool) := λ _, None.


(** The store keeps identifiers unique within a collection. *)
Definition unique_ids (c : Collection) : Prop := NoDup (Todo._id <$> c).

(** A string that does not begin with a blank. *)
Definition starts_clean (s : string) : Prop :=
  match s with
  | EmptyString => True
  | String c _ => Js.is_whitespace c = false
  end.

(** A create request with a blank text, and an update that clears the
    deadline and completes the task. *)
Definition blank_body : Routes.Body := {[ "text" := Js.VStr "   " ]}.

Definition clearing_body : Routes.Body :=
  {[ "deadline" := Js.VNull; "completed" := Js.VBool true ]}.

(** A text that is one no-break space, a create request that sends it,
    an update that sends a text padded with it, and an update that names
    the text task 12 has. *)
Definition nbsp : string := String "160"%char EmptyString.

Definition nbsp_body : Routes.Body := {[ "text" := Js.VStr nbsp ]}.




(** Newest first. *)
Definition newer_first (x y : Todo.t) : Prop :=
  (Todo.createdAt y ≤ Todo.createdAt x)%Z.

(** A request for a page of 500 tasks. *)
Definition oversized_query : Routes.Query := {[ "limit" := "500" ]}.



(** A request with a blank search string. *)
Definition blank_search_query : Routes.Query :=
  {[ "completed" := "false"; "search" := "  " ]}.

(** The order a comparator induces: [a] may come before [b]. *)
Definition before {A} (cmp : A → A → Z) (a b : A) : Prop := (cmp a b ≤ 0)%Z.

(** A comparator is consistent when "may come before" is total and
    transitive. *)
Definition consistent {A} (cmp : A → A → Z) : Prop :=
  (∀ a b, before cmp a b ∨ before cmp b a)
  ∧ (∀ a b c, before cmp a b → before cmp b c → before cmp a c).

(** An offline client with three tasks: one overdue, one without
    deadline, one completed. *)
Definition offline_late : App.todo :=
  App.mkTodo 22 "File taxes" false (Some (an_instant - a_day)%Z) (an_instant - 3 * a_day)%Z.

Definition offline_done : App.todo :=
  App.mkTodo 23 "Call home" true (Some (an_instant + a_day)%Z) (an_instant - 2 * a_day)%Z.

Definition offline_plain : App.todo :=
  App.mkTodo 24 "Buy milk" false None (an_instant - a_day)%Z.

Definition offline_client : App.state :=
  App.mkState [offline_plain; offline_done; offline_late]
    "  Water plants " "" "" "all" None "" "" "" "priority".

#[global] Instance offline_todo_eq_dec : EqDecision App.todo.
Proof. solve_decision. Defined.

(** The offline client with a no-break space in the field for a new
    task. *)
Definition offline_client_nbsp : App.state :=
  App.mkState [offline_plain; offline_done; offline_late]
    nbsp "" "" "all" None "" "" "" "priority".

(** The offline client editing task 22: new text, no date. *)
Definition offline_editing : App.state :=
  App.mkState [offline_plain; offline_done; offline_late]
    "" "" "" "all" (Some 22%Z) " Pay taxes " "" "" "created".

(** The same, the new text padded with no-break spaces. *)
Definition offline_editing_nbsp : App.state :=
  App.mkState [offline_plain; offline_done; offline_late]
    "" "" "" "all" (Some 22%Z) (nbsp +:+ "Pay taxes" +:+ nbsp) "" "" "created".

(** The requests of the backend-integrated client, wired to the handlers:
    a request resolves with the [data] of a reply whose status is 2xx and
    rejects otherwise. *)
Definition resolved {A} (r : Reply A) : option A :=
  if Nat.leb 200 (status r) && Nat.ltb (status r) 300 then data r else None.

Definition server_get (query_writable : bool) (engine : string → option (string → bool))
    (uid : ObjectId) (c : Collection) : option (list Todo.t) :=
  resolved (Routes.get_todos query_writable engine uid ∅ c).

Definition completed_body (b : bool) : Routes.Body :=
  {[ "completed" := Js.VBool b ]}.

Definition server_put_completed (dp : string → option Z) (uid : ObjectId) (now : Z)
    (c : Collection) (i : ObjectId) (b : bool) : option Todo.t :=
  resolved (Routes.put_todo dp (Some i) uid now (completed_body b) c).1.

Definition server_delete (uid : ObjectId) (c : Collection) (i : ObjectId) : bool :=
  let r := (Routes.delete_todo (Some i) uid c).1 in
  Nat.leb 200 (status r) && Nat.ltb (status r) 300.

(** The client shows stored tasks of the user only. *)
Definition shows (uid : ObjectId) (c : Collection) (s : TodoApp.state) : Prop :=
  ∀ t, t ∈ TodoApp.todos s → t ∈ c ∧ Todo.user t = uid.

(** Two client states that differ at most in the error message. *)
Definition same_but_error (s s' : TodoApp.state) : Prop :=
  TodoApp.todos s' = TodoApp.todos s
  ∧ TodoApp.newTodo s' = TodoApp.newTodo s
  ∧ TodoApp.newDeadline s' = TodoApp.newDeadline s
  ∧ TodoApp.newTime s' = TodoApp.newTime s
  ∧ TodoApp.filter s' = TodoApp.filter s
  ∧ TodoApp.editingId s' = TodoApp.editingId s
  ∧ TodoApp.editText s' = TodoApp.editText s
  ∧ TodoApp.editDeadline s' = TodoApp.editDeadline s
  ∧ TodoApp.editTime s' = TodoApp.editTime s
  ∧ TodoApp.sortBy s' = TodoApp.sortBy s
  ∧ TodoApp.loading s' = TodoApp.loading s.

(** A backend-integrated client showing two tasks, editing the second. *)
Definition online_client : TodoApp.state :=
  TodoApp.mkState [task_B; task_A] "Water plants" "" "" "all" (Some 11)
    "Buy oat milk" "" "" "created" false "".

(** The same client with a no-break space in the field for a new task. *)
Definition online_client_nbsp : TodoApp.state :=
  TodoApp.mkState [task_B; task_A] nbsp "" "" "all" None "" "" "" "created" false "".

(** A loaded document with its completion flag set by an update. *)
Definition with_completed (b : bool) (now : Z) (x : Todo.t) : Todo.t :=
  Model.stamp now x
    {| Todo._id := Todo._id x; Todo.user := Todo.user x; Todo.text := Todo.text x;
       Todo.completed := b; Todo.deadline := Todo.deadline x;
       Todo.priority := Todo.priority x; Todo.category := Todo.category x;
       Todo.createdAt := Todo.createdAt x; Todo.updatedAt := Todo.updatedAt x |}.

(** "ceil(remaining / 1h)", the whole hours a remaining time rounds up to. *)
Definition ceil_hours (remaining : Z) : Z :=
  Qceiling (inject_Z remaining / inject_Z 3600000).

(** Fixed renderings for the examples. *)
Definition sample_time : Z → string := λ _, "10:00".
Definition sample_date : Z → string := λ _, "11/14/2023".

(** ** Statistics *)

Lemma counted_overdue_bson now x :
  bson_date_lt (Todo.deadline x) (Some now) && Bool.eqb (Todo.completed x) false = true
  ↔ counted_overdue now x.
Proof.
  unfold counted_overdue, bson_date_lt.
  destruct (Todo.completed x) eqn:Ec, (Todo.deadline x) as [d|] eqn:Ed; simpl.
  - rewrite Bool.andb_false_r. split; [done | intros [? _]; done].
  - split; [done | intros [? _]; done].
  - rewrite Bool.andb_true_r, Z.ltb_lt. split.
    + intros Hlt. split; [done|]. intros d' [= <-]. exact Hlt.
    + intros [_ H]. apply H. reflexivity.
  - split; [|done]. intros _. split; [done|]. intros d' ?. done.
Qed.

Lemma group_fold now l acc :
  let r := foldl (Routes.group_step now) acc l in
  Stats.total r = Stats.total acc + length l
  ∧ Stats.completed r = Stats.completed acc + count_completed l
  ∧ Stats.pending r = Stats.pending acc + count_pending l
  ∧ Stats.overdue r
    = Stats.overdue acc + length (filter (counted_overdue now) l).
Proof.
  revert acc. induction l as [|x l IH]; intros acc; simpl.
  - unfold count_completed, count_pending. simpl. lia.
  - specialize (IH (Routes.group_step now acc x)). simpl in IH.
    destruct IH as (Ht & Hc & Hp & Ho).
    rewrite Ht, Hc, Hp, Ho. clear Ht Hc Hp Ho.
    unfold count_completed, count_pending. rewrite !filter_cons.
    unfold Routes.cond.
    pose proof (counted_overdue_bson now x) as Hb.
    destruct (bson_date_lt _ _ && _).
    + rewrite (decide_True (P := counted_overdue now x)) by (apply Hb; done).
      destruct (Todo.completed x); simpl; lia.
    + rewrite (decide_False (P := counted_overdue now x))
        by (intros H; apply Hb in H; done).
      destruct (Todo.completed x); simpl; lia.
Qed.

(** The reply of the statistics handler, in closed form. *)
Lemma get_stats_counts uid now c :
  Routes.get_stats uid now c
  = mkReply 200 true
      (Some {| Stats.total := length (owned uid c);
               Stats.completed := count_completed (owned uid c);
               Stats.pending := count_pending (owned uid c);
               Stats.overdue := length (filter (counted_overdue now) (owned uid c)) |})
      None None.
Proof.
  unfold Routes.get_stats, Routes.aggregate_stats. fold (owned uid c).
  destruct (owned uid c) as [|x l] eqn:E; [reflexivity|].
  cbn [lookup list_lookup default].
  pose proof (group_fold now (x :: l) Stats.zero) as H. cbv zeta in H.
  destruct H as (Ht & Hc & Hp & Ho).
  destruct (foldl _ _ _) as [t cm p o]. simpl in *. subst. reflexivity.
Qed.

Lemma completed_or_pending l :
  length l = count_completed l + count_pending l.
Proof.
  unfold count_completed, count_pending.
  induction l as [|x l IH]; [reflexivity|].
  rewrite !filter_cons. destruct (Todo.completed x); simpl in *; lia.
Qed.

Lemma counted_overdue_pending now l :
  (length (filter (counted_overdue now) l) ≤ count_pending l)%nat.
Proof.
  unfold count_pending. induction l as [|x l IH]; [reflexivity|].
  rewrite !filter_cons.
  destruct (decide (counted_overdue now x)) as [[Hc _]|_].
  - rewrite decide_True by exact Hc. simpl. lia.
  - case_decide; simpl; lia.
Qed.

(** C8. For every owner and every collection, the statistics reply
    satisfies total = completed + pending and overdue <= pending, where
    total counts all the owner's tasks, completed those with completed =
    true and pending those with completed = false. *)
Theorem stats_invariants uid now c :
  ∃ s, data (Routes.get_stats uid now c) = Some s
    ∧ Stats.total s = Stats.completed s + Stats.pending s
    ∧ (Stats.overdue s ≤ Stats.pending s)%nat
    ∧ Stats.total s = length (owned uid c)
    ∧ Stats.completed s = count_completed (owned uid c)
    ∧ Stats.pending s = count_pending (owned uid c).
Proof.
  rewrite get_stats_counts. eexists. split; [reflexivity|]. simpl.
  split; [apply completed_or_pending|].
  split; [apply counted_overdue_pending|]. done.
Qed.

(** C9. When the owner has no task the aggregation yields no row and the
    handler answers with success and the explicit all-zero object. *)
Theorem stats_of_no_tasks uid now c :
  owned uid c = [] →
  Routes.aggregate_stats uid now c = []
  ∧ Routes.get_stats uid now c
    = mkReply 200 true
        (Some {| Stats.total := 0; Stats.completed := 0;
                 Stats.pending := 0; Stats.overdue := 0 |})
        None None.
Proof.
  intros H. unfold Routes.get_stats, Routes.aggregate_stats.
  fold (owned uid c). rewrite H. split; reflexivity.
Qed.

Lemma stats_of_no_tasks_witness :
  owned bob [task_A; task_B] = []
  ∧ Routes.get_stats bob an_instant [task_A; task_B]
    = mkReply 200 true (Some (Stats.mk 0 0 0 0)) None None.
Proof.
  split; [reflexivity|].
  apply (stats_of_no_tasks bob an_instant [task_A; task_B]). reflexivity.
Defined.

(** What the [overdue] accumulator counts: the owner's tasks that are not
    completed and whose deadline, if there is one, is before [now]. *)
Lemma stats_overdue_counts uid now c s :
  data (Routes.get_stats uid now c) = Some s →
  Stats.overdue s = length (filter (counted_overdue now) (owned uid c)).
Proof. rewrite get_stats_counts. intros [= <-]. reflexivity. Qed.

(** The accumulator exceeds the number of overdue tasks by the number of
    pending tasks that have no deadline. *)
Lemma counted_overdue_excess now (l : list Todo.t) :
  length (filter (counted_overdue now) l)
  = count_overdue now l
    + length (filter (λ x, Todo.completed x = false ∧ Todo.deadline x = None) l).
Proof.
  unfold count_overdue. induction l as [|x l IH]; [reflexivity|].
  rewrite !filter_cons.
  destruct (decide (counted_overdue now x)) as [[Hc Hd]|Hn].
  - destruct (Todo.deadline x) as [d|] eqn:Ed.
    + rewrite (decide_True (P := is_overdue_task now x))
        by (split; [done | exists d; auto]).
      case_decide as Hx; [destruct Hx as [_ [=]] | simpl; lia].
    + rewrite (decide_False (P := is_overdue_task now x))
        by (intros [_ (d & ? & _)]; congruence).
      case_decide as Hx; [simpl; lia | destruct Hx; done].
  - rewrite (decide_False (P := is_overdue_task now x)).
    + case_decide as Hx; [|exact IH]. destruct Hx as [Hc Hd].
      exfalso. apply Hn. split; [exact Hc|]. intros d ?. congruence.
    + intros [Hc (d & Hd & Hlt)]. apply Hn. split; [exact Hc|].
      intros d' ?. congruence.
Qed.

(** C1, on the scenario of the specification: task A without deadline and
    task B, not completed, with yesterday's deadline. Exactly one of the
    two is overdue in the specification's sense, and the handler reports
    two: the aggregation's [$lt] puts the absent deadline of A below every
    date. *)
Example stats_scenario_counts_missing_deadline :
  count_overdue an_instant (owned alice [task_A; task_B]) = 1
  ∧ data (Routes.get_stats alice an_instant [task_A; task_B])
    = Some {| Stats.total := 2; Stats.completed := 0;
              Stats.pending := 2; Stats.overdue := 2 |}.
Proof. split; reflexivity. Qed.

(** ** The deadline classifier *)

Lemma ceil_days_div r : ceil_days r = (- ((- r) / 86400000))%Z.
Proof.
  unfold ceil_days, Qceiling, Qfloor. cbn. rewrite !Z.mul_1_r. reflexivity.
Qed.

(** Rounding up to whole days against a bound in days. *)
Lemma ceil_days_le r k : (ceil_days r ≤ k ↔ r ≤ k * 86400000)%Z.
Proof.
  rewrite ceil_days_div.
  pose proof (Z.div_mod (- r) 86400000) as Hd.
  pose proof (Z.mod_pos_bound (- r) 86400000) as Hm.
  lia.
Qed.

Lemma diffHours_le_24 r :
  Qle_bool (inject_Z r / inject_Z (1000 * 60 * 60)) (inject_Z 24)
  = (r <=? 86400000)%Z.
Proof.
  unfold Qle_bool. cbn. rewrite !Z.mul_1_r. reflexivity.
Qed.

(** The classifier on a pending task with a deadline, in integer
    arithmetic on the remaining milliseconds. *)
Lemma getDeadlineStatus_pending now d :
  App.getDeadlineStatus now (Some d) false
  = if (d - now <? 0)%Z then overdue
    else if (d - now <=? 86400000)%Z then today
    else if (d - now <=? 3 * 86400000)%Z then soon
    else normal.
Proof.
  unfold App.getDeadlineStatus. cbv zeta.
  rewrite diffHours_le_24. change (Qceiling _) with (ceil_days (d - now)).
  pose proof (ceil_days_le (d - now) 1) as [H1 H1'].
  pose proof (ceil_days_le (d - now) 3) as [H3 H3'].
  destruct (Z.ltb_spec (d - now) 0); [reflexivity|].
  destruct (Z.leb_spec (d - now) 86400000),
           (Z.leb_spec (ceil_days (d - now)) 1),
           (Z.leb_spec (ceil_days (d - now)) 3),
           (Z.leb_spec (d - now) (3 * 86400000)); simpl; try reflexivity;
    exfalso; lia.
Qed.

(** The two components carry the same classifier and the same predicate. *)
Lemma getDeadlineStatus_same now deadline completed :
  TodoApp.getDeadlineStatus now deadline completed
  = App.getDeadlineStatus now deadline completed.
Proof. reflexivity. Qed.

Lemma isOverdue_same now deadline :
  TodoApp.isOverdue now deadline = App.isOverdue now deadline.
Proof. reflexivity. Qed.

(** C4. The classifier is a total function into the five buckets, the same
    in both components, and each bucket is returned exactly on its case:
    none for no deadline or a completed task (whatever the deadline),
    overdue for a pending task whose deadline is strictly before now, today
    for a remaining time from 0 to 24 hours, soon for more than 24 hours
    and at most 3 days rounded up, normal for everything further out. *)
Theorem classifier_cases now deadline completed :
  let st := App.getDeadlineStatus now deadline completed in
  TodoApp.getDeadlineStatus now deadline completed = st
  ∧ st ∈ [none; overdue; today; soon; normal]
  ∧ (st = none ↔ deadline = None ∨ completed = true)
  ∧ (st = overdue ↔
       completed = false ∧ ∃ d, deadline = Some d ∧ (d < now)%Z)
  ∧ (st = today ↔
       completed = false
       ∧ ∃ d, deadline = Some d ∧ (0 ≤ d - now ≤ 24 * 3600000)%Z)
  ∧ (st = soon ↔
       completed = false
       ∧ ∃ d, deadline = Some d
           ∧ (24 * 3600000 < d - now)%Z ∧ (ceil_days (d - now) ≤ 3)%Z)
  ∧ (st = normal ↔
       completed = false
       ∧ ∃ d, deadline = Some d ∧ (3 < ceil_days (d - now))%Z).
Proof.
  intros st. split; [reflexivity|].
  split; [destruct st; set_solver|].
  subst st. destruct deadline as [d|], completed.
  1, 3, 4: repeat split; simpl; intros; try discriminate; auto;
    repeat match goal with
           | H : _ ∧ _ |- _ => destruct H
           | H : ∃ _, _ |- _ => destruct H
           end; discriminate.
  rewrite getDeadlineStatus_pending.
  pose proof (ceil_days_le (d - now) 3) as H3.
  destruct (Z.ltb_spec (d - now) 0);
    [| destruct (Z.leb_spec (d - now) 86400000);
       [| destruct (Z.leb_spec (d - now) (3 * 86400000))]].
  all: repeat split; intros; try discriminate; try tauto;
    repeat match goal with
           | H : _ ∨ _ |- _ => destruct H
           | H : _ ∧ _ |- _ => destruct H
           | H : ∃ _, _ |- _ => destruct H
           | H : Some _ = Some _ |- _ => injection H as <-
           end; try discriminate; try lia;
    try (exists d; split; [reflexivity | lia]).
Qed.

Lemma classifier_overdue_iff now deadline completed :
  (∃ d, deadline = Some d ∧ (d < now)%Z) ∧ completed = false
  ↔ App.getDeadlineStatus now deadline completed = overdue.
Proof.
  destruct deadline as [d|], completed.
  1, 3, 4: split; [intros [[d' [? ?]] ?]; discriminate | discriminate].
  rewrite getDeadlineStatus_pending. split.
  - intros [[d' [[= <-] Hlt]] _].
    destruct (Z.ltb_spec (d - now) 0); [reflexivity | lia].
  - intros H. split; [|reflexivity]. exists d. split; [reflexivity|].
    destruct (Z.ltb_spec (d - now) 0); [lia|].
    destruct (d - now <=? 86400000)%Z; [discriminate|].
    destruct (d - now <=? 3 * 86400000)%Z; discriminate.
Qed.

(** C5. At one instant, "deadline present, strictly before now, task not
    completed" holds exactly when the classifier answers overdue; and that
    is what [isOverdue] conjoined with not-completed computes, in both
    components. *)
Theorem overdue_agrees_with_classifier now deadline completed :
  ((∃ d, deadline = Some d ∧ (d < now)%Z) ∧ completed = false
   ↔ App.getDeadlineStatus now deadline completed = overdue)
  ∧ (App.isOverdue now deadline && negb completed = true
     ↔ App.getDeadlineStatus now deadline completed = overdue)
  ∧ (TodoApp.isOverdue now deadline && negb completed = true
     ↔ TodoApp.getDeadlineStatus now deadline completed = overdue).
Proof.
  pose proof (classifier_overdue_iff now deadline completed) as Hc.
  split; [tauto|].
  assert (App.isOverdue now deadline && negb completed = true
          ↔ App.getDeadlineStatus now deadline completed = overdue) as Hi.
  { rewrite <- Hc. unfold App.isOverdue.
    destruct deadline as [d|], completed; simpl;
      rewrite ?Bool.andb_false_r, ?Bool.andb_true_r, ?Z.ltb_lt.
    - split; [done | intros [_ ?]; done].
    - split; [intros; split; [eauto | done] | intros [[d' [[= <-] ?]] _]; done].
    - split; [done | intros [_ ?]; done].
    - split; [done | intros [[d' [? _]] _]; done]. }
  split; exact Hi.
Qed.

(** ** Bulk actions *)

Lemma matches_by_user uid b x :
  matches (Routes.by_user uid b) x
  = Nat.eqb (Todo.user x) uid && opt_test b (λ b, Bool.eqb (Todo.completed x) b).
Proof. unfold matches, Routes.by_user. simpl. rewrite !Bool.andb_true_r. reflexivity. Qed.

Lemma find_by_user_all uid c :
  Model.find (Routes.by_user uid None) c = owned uid c.
Proof.
  unfold Model.find, owned. apply list_filter_iff. intros x.
  rewrite matches_by_user. simpl. rewrite Bool.andb_true_r.
  rewrite Is_true_true, Nat.eqb_eq. reflexivity.
Qed.

Lemma length_find_pending uid c :
  length (Model.find (Routes.by_user uid (Some false)) c)
  = count_pending (owned uid c).
Proof.
  unfold Model.find, owned, count_pending.
  induction c as [|x c IH]; [reflexivity|].
  rewrite !filter_cons, matches_by_user. simpl.
  destruct (Nat.eqb_spec (Todo.user x) uid) as [E|E].
  - rewrite (decide_True (P := Todo.user x = uid)) by exact E.
    rewrite filter_cons. destruct (Todo.completed x); simpl; rewrite IH; reflexivity.
  - rewrite (decide_False (P := Todo.user x = uid)) by exact E. simpl. exact IH.
Qed.

Lemma find_after_delete f (c : Collection) :
  Model.find f (filter (λ x, ¬ matches f x) c) = [].
Proof.
  unfold Model.find. induction c as [|x c IH]; [reflexivity|].
  rewrite filter_cons. case_decide as H; [|exact IH].
  rewrite filter_cons, decide_False by exact H. exact IH.
Qed.

Lemma delete_twice f (c : Collection) :
  filter (λ x, ¬ matches f x) (filter (λ x, ¬ matches f x) c)
  = filter (λ x, ¬ matches f x) c.
Proof.
  induction c as [|x c IH]; [reflexivity|].
  rewrite filter_cons. case_decide as H; [|exact IH].
  rewrite filter_cons, decide_True by exact H. f_equal. exact IH.
Qed.

Lemma complete_one_unmatched uid now x :
  matches (Routes.by_user uid (Some false)) (complete_one uid now x) = false.
Proof.
  unfold complete_one.
  destruct (matches _ x) eqn:E; [|exact E].
  rewrite matches_by_user. simpl. apply Bool.andb_false_r.
Qed.

Lemma find_after_complete uid now (c : Collection) :
  Model.find (Routes.by_user uid (Some false)) (complete_one uid now <$> c) = [].
Proof.
  unfold Model.find. induction c as [|x c IH]; [reflexivity|].
  rewrite fmap_cons, filter_cons, complete_one_unmatched. exact IH.
Qed.

Lemma complete_twice uid now now' (c : Collection) :
  complete_one uid now' <$> (complete_one uid now <$> c)
  = complete_one uid now <$> c.
Proof.
  rewrite <- list_fmap_compose. apply list_fmap_ext. intros _ x _. simpl.
  unfold complete_one at 1. rewrite complete_one_unmatched. reflexivity.
Qed.

Lemma patch_bulk_delete_all uid now c :
  Routes.patch_bulk uid now (bulk_body "delete-all") c
  = (bulk_reply (length (owned uid c)),
     filter (λ x, ¬ matches (Routes.by_user uid None) x) c).
Proof.
  unfold Routes.patch_bulk, bulk_body. rewrite lookup_singleton_eq. simpl.
  rewrite find_by_user_all. unfold bulk_reply, Routes.or_count. simpl.
  destruct (length (owned uid c)); reflexivity.
Qed.

Lemma patch_bulk_complete_all uid now c :
  Routes.patch_bulk uid now (bulk_body "complete-all") c
  = (bulk_reply (count_pending (owned uid c)), complete_one uid now <$> c).
Proof.
  unfold Routes.patch_bulk, bulk_body. rewrite lookup_singleton_eq. simpl.
  rewrite length_find_pending. unfold bulk_reply, Routes.or_count. simpl.
  destruct (count_pending (owned uid c)); reflexivity.
Qed.

(** C6. Bulk actions are idempotent per owner. With at least one task,
    delete-all answers a positive count and leaves the owner without
    tasks, and a second delete-all answers 0 and changes nothing. With at
    least one task not completed, complete-all answers the positive number
    of those tasks and leaves none pending, and a second complete-all
    answers 0 and changes nothing: no completed task is counted again. *)
Theorem bulk_idempotent uid now now' (c : Collection) :
  (owned uid c ≠ [] →
   ∃ n c1,
     Routes.patch_bulk uid now (bulk_body "delete-all") c = (bulk_reply n, c1)
     ∧ 0 < n
     ∧ owned uid c1 = []
     ∧ Routes.patch_bulk uid now' (bulk_body "delete-all") c1 = (bulk_reply 0, c1))
  ∧ (count_pending (owned uid c) ≠ 0 →
     ∃ n c1,
       Routes.patch_bulk uid now (bulk_body "complete-all") c = (bulk_reply n, c1)
       ∧ 0 < n
       ∧ n = count_pending (owned uid c)
       ∧ count_pending (owned uid c1) = 0
       ∧ Routes.patch_bulk uid now' (bulk_body "complete-all") c1 = (bulk_reply 0, c1)).
Proof.
  split.
  - intros Hne. eexists _, _. split; [apply patch_bulk_delete_all|].
    assert (owned uid (filter (λ x, ¬ matches (Routes.by_user uid None) x) c) = [])
      as Hgone by (rewrite <- find_by_user_all; apply find_after_delete).
    split; [destruct (owned uid c); [done | simpl; lia]|].
    split; [exact Hgone|].
    rewrite patch_bulk_delete_all, Hgone, delete_twice. reflexivity.
  - intros Hne. eexists _, _. split; [apply patch_bulk_complete_all|].
    assert (count_pending (owned uid (complete_one uid now <$> c)) = 0)
      as Hdone by (rewrite <- length_find_pending, find_after_complete; reflexivity).
    split; [lia|]. split; [reflexivity|]. split; [exact Hdone|].
    rewrite patch_bulk_complete_all, Hdone, complete_twice. reflexivity.
Qed.

Lemma bulk_idempotent_witness :
  (∃ n c1,
     Routes.patch_bulk alice an_instant (bulk_body "delete-all") sample_tasks
     = (bulk_reply n, c1)
     ∧ 0 < n ∧ owned alice c1 = []
     ∧ Routes.patch_bulk alice (an_instant + 1) (bulk_body "delete-all") c1
       = (bulk_reply 0, c1))
  ∧ (∃ n c1,
       Routes.patch_bulk alice an_instant (bulk_body "complete-all") sample_tasks
       = (bulk_reply n, c1)
       ∧ 0 < n ∧ n = count_pending (owned alice sample_tasks)
       ∧ count_pending (owned alice c1) = 0
       ∧ Routes.patch_bulk alice (an_instant + 1) (bulk_body "complete-all") c1
         = (bulk_reply 0, c1)).
Proof.
  destruct (bulk_idempotent alice an_instant (an_instant + 1) sample_tasks)
    as [Hdel Hcom].
  split; [apply Hdel | apply Hcom]; vm_compute; discriminate.
Defined.

(** ** Listing: pagination *)

Lemma sanitize_list_other wb (q : Routes.Query) k :
  k ≠ "search" → Routes.sanitize_list wb q !! k = q !! k.
Proof.
  intros Hk. unfold Routes.sanitize_list. destruct wb; [|reflexivity].
  destruct (q !! "search"); [|reflexivity].
  apply lookup_insert_ne. congruence.
Qed.

Lemma sanitize_list_search wb (q : Routes.Query) :
  Routes.sanitize_list wb q !! "search"
  = (if wb then Js.trim else id) <$> q !! "search".
Proof.
  unfold Routes.sanitize_list. destruct wb.
  - destruct (q !! "search") as [s|] eqn:E; simpl.
    + apply lookup_insert_eq.
    + exact E.
  - destruct (q !! "search"); reflexivity.
Qed.

(** A validated integer parameter is read back as the number it denotes,
    within the validator's bounds; an absent one takes the default. *)
Lemma parseInt_or_validated x min max dflt :
  (1 ≤ min)%Z →
  opt_test x (Routes.isInt min max) = true →
  match x with
  | Some _ =>
      (min ≤ Js.parseInt_or x dflt)%Z
      ∧ ∀ m, max = Some m → (Js.parseInt_or x dflt ≤ m)%Z
  | None => Js.parseInt_or x dflt = dflt
  end.
Proof.
  intros Hmin H. destruct x as [s|]; [|reflexivity].
  unfold Js.parseInt_or. simpl in *. unfold Routes.isInt in H.
  destruct (Js.int_of_string s) as [n|]; [|discriminate].
  apply andb_prop in H as [H1 H2]. apply Z.leb_le in H1.
  destruct (Z.eqb_spec n 0); [lia|]. split; [exact H1|].
  intros m ->. simpl in H2. apply Z.leb_le in H2. exact H2.
Qed.

Lemma validated_page_limit q :
  Routes.validate_list q = true →
  (1 ≤ Js.parseInt_or (q !! "page") 1)%Z
  ∧ (1 ≤ Js.parseInt_or (q !! "limit") 10 ≤ 100)%Z.
Proof.
  unfold Routes.validate_list. intros H.
  repeat (apply andb_prop in H as [H ?]).
  pose proof (parseInt_or_validated (q !! "page") 1 None 1 ltac:(lia) H) as Hp.
  pose proof (parseInt_or_validated (q !! "limit") 1 (Some 100%Z) 10 ltac:(lia))
    as Hl.
  split.
  - destruct (q !! "page"); [apply Hp | rewrite Hp; lia].
  - destruct (q !! "limit"); [|rewrite Hl by done; lia].
    destruct Hl as [Hl1 Hl2]; [done|]. specialize (Hl2 _ eq_refl). lia.
Qed.

Lemma bson_date_le_total a b : bson_date_le a b = true ∨ bson_date_le b a = true.
Proof.
  unfold bson_date_le, bson_date_lt. destruct a as [x|], b as [y|]; simpl; auto.
  destruct (Z.ltb_spec x y), (Z.ltb_spec y x); simpl; auto. lia.
Qed.

Lemma key_le_total sortBy x y : key_le sortBy x y = true ∨ key_le sortBy y x = true.
Proof.
  unfold key_le. repeat case_match.
  - apply bson_date_le_total.
  - apply String.leb_total.
  - apply String.leb_total.
  - rewrite !Z.leb_le. lia.
Qed.

Lemma sort_rel_total sortBy asc : Total (sort_rel sortBy asc).
Proof.
  intros x y. unfold sort_rel.
  destruct asc, (key_le_total sortBy x y) as [H|H]; rewrite H; simpl; auto.
Qed.

(** C7. For every owner and every valid page and limit the list handler
    skips (page - 1) * limit documents and takes limit of them, after
    filtering and sorting; so the items are at most limit and at most the
    matching total, and the total reported as [totalTodos] is the count of
    the very filter that selected the page. This holds under either
    version of the framework and whatever the pattern engine. *)
Theorem list_pagination wb engine uid (q : Routes.Query) (c : Collection) f :
  Routes.validate_list q = true →
  Routes.build_filter engine uid (Routes.sanitize_list wb q) = Some f →
  let page := Js.parseInt_or (q !! "page") 1 in
  let limit := Js.parseInt_or (q !! "limit") 10 in
  let order :=
    sort_rel (default "createdAt" (Routes.given (q !! "sortBy")))
             (bool_decide (q !! "sortOrder" = Some "asc")) in
  ∃ items pg sorted,
    Routes.get_todos wb engine uid q c = mkReply 200 true (Some items) (Some pg) None
    ∧ (1 ≤ page)%Z ∧ (1 ≤ limit ≤ 100)%Z
    ∧ sorted ≡ₚ Model.find f c
    ∧ Sorted order sorted
    ∧ items = take (Z.to_nat limit) (drop (Z.to_nat ((page - 1) * limit)) sorted)
    ∧ (length items ≤ Z.to_nat limit)%nat
    ∧ (length items ≤ totalTodos pg)%nat
    ∧ totalTodos pg = length (Model.find f c)
    ∧ ∀ x, x ∈ items → x ∈ c ∧ matches f x.
Proof.
  intros Hv Hf page limit order.
  destruct (validated_page_limit q Hv) as [Hpage Hlimit].
  unfold Routes.get_todos. rewrite Hv, Hf. simpl.
  rewrite !sanitize_list_other by done.
  fold page limit.
  set (sorted := Model.sort _ _ _).
  assert (sorted ≡ₚ Model.find f c) as Hperm by apply merge_sort_Permutation.
  eexists _, _, sorted. split; [reflexivity|].
  split; [exact Hpage|]. split; [exact Hlimit|]. split; [exact Hperm|].
  split; [apply Sorted_merge_sort, sort_rel_total|].
  split; [reflexivity|]. unfold Model.limit, Model.skip, Model.countDocuments. simpl.
  split; [rewrite length_take; lia|].
  split; [rewrite length_take, length_drop, (Permutation_length Hperm); lia|].
  split; [reflexivity|].
  intros x Hx. apply subseteq_take in Hx.
  pose proof (elem_of_sublist _ _ _ Hx (sublist_drop _ _)) as Hx'.
  rewrite Hperm in Hx'. unfold Model.find in Hx'.
  apply list_elem_of_filter in Hx' as [Hm Hc]. split; [exact Hc|exact Hm].
Qed.

Lemma list_pagination_witness :
  ∃ items pg sorted,
    Routes.get_todos true fragment_only alice page_two_of_two sample_tasks
    = mkReply 200 true (Some items) (Some pg) None
    ∧ (1 ≤ 2)%Z ∧ (1 ≤ 2 ≤ 100)%Z
    ∧ sorted ≡ₚ Model.find (Routes.by_user alice None) sample_tasks
    ∧ Sorted (sort_rel "createdAt" false) sorted
    ∧ items = take 2 (drop 2 sorted)
    ∧ (length items ≤ 2)%nat
    ∧ (length items ≤ totalTodos pg)%nat
    ∧ totalTodos pg = 3
    ∧ ∀ x, x ∈ items → x ∈ sample_tasks ∧ matches (Routes.by_user alice None) x.
Proof.
  exact (list_pagination true fragment_only alice page_two_of_two sample_tasks
           (Routes.by_user alice None) eq_refl eq_refl).
Defined.

(** ** Creation *)

Lemma sanitize_create_text (body : Routes.Body) :
  Routes.sanitize_create body !! "text"
  = Some (Js.VStr (Js.trim (from_option Js.toString EmptyString (body !! "text")))).
Proof.
  unfold Routes.sanitize_create. destruct (body !! "category").
  - rewrite lookup_insert_ne by done. apply lookup_insert_eq.
  - apply lookup_insert_eq.
Qed.

Lemma sanitize_create_category (body : Routes.Body) :
  Routes.sanitize_create body !! "category"
  = (λ v, Js.VStr (Js.trim (Js.toString v))) <$> body !! "category".
Proof.
  unfold Routes.sanitize_create. destruct (body !! "category") eqn:E; simpl.
  - apply lookup_insert_eq.
  - rewrite lookup_insert_ne by done. exact E.
Qed.

Lemma sanitize_create_other (body : Routes.Body) k :
  k ≠ "text" → k ≠ "category" →
  Routes.sanitize_create body !! k = body !! k.
Proof.
  intros Ht Hc. unfold Routes.sanitize_create. destruct (body !! "category").
  - rewrite !lookup_insert_ne by done. reflexivity.
  - rewrite lookup_insert_ne by done. reflexivity.
Qed.

(** The handler depends on the body through four keys only. *)
Lemma post_todo_reads iso dp uid fresh now (b1 b2 : Routes.Body) (c : Collection) :
  b1 !! "text" = b2 !! "text" →
  b1 !! "deadline" = b2 !! "deadline" →
  b1 !! "priority" = b2 !! "priority" →
  b1 !! "category" = b2 !! "category" →
  Routes.post_todo iso dp uid fresh now b1 c
  = Routes.post_todo iso dp uid fresh now b2 c.
Proof.
  intros Ht Hd Hp Hc. unfold Routes.post_todo, Routes.validate_create.
  rewrite !sanitize_create_text, !sanitize_create_category.
  rewrite !(sanitize_create_other _ "deadline"),
          !(sanitize_create_other _ "priority") by done.
  rewrite Ht, Hd, Hp, Hc. reflexivity.
Qed.

Lemma post_todo_outcome iso dp uid fresh now (body : Routes.Body) (c : Collection) :
  let out := Routes.post_todo iso dp uid fresh now body c in
  (data out.1 = None ∧ out.2 = c)
  ∨ ∃ t, data out.1 = Some t ∧ status out.1 = 201 ∧ out.2 = (c ++ [t])%list
       ∧ Todo.completed t = false ∧ Todo.user t = uid.
Proof.
  unfold Routes.post_todo.
  destruct (Routes.validate_create iso body); simpl; [|left; done].
  unfold Todo.create.
  destruct (Routes.given_value _) as [v|]; [destruct (Routes.new_Date dp v)|];
    simpl; try (left; done);
    match goal with |- context [if ?b then _ else _] => destruct b end;
    simpl; try (left; done); right; eexists; repeat split.
Qed.

(** C10. The create handler never reads [completed] from the body: the
    outcome is the same whatever value is sent for it, and every task it
    creates has completed = false. *)
Theorem create_ignores_completed iso dp uid fresh now (body : Routes.Body) v
    (c : Collection) :
  Routes.post_todo iso dp uid fresh now (<["completed" := v]> body) c
  = Routes.post_todo iso dp uid fresh now (delete "completed" body) c
  ∧ ∀ t, data (Routes.post_todo iso dp uid fresh now body c).1 = Some t →
         Todo.completed t = false
         ∧ (Routes.post_todo iso dp uid fresh now body c).2 = (c ++ [t])%list.
Proof.
  split.
  - apply post_todo_reads;
      rewrite lookup_insert_ne, lookup_delete_ne by done; reflexivity.
  - intros t Ht.
    destruct (post_todo_outcome iso dp uid fresh now body c)
      as [[Hn _] | (t' & Hs & _ & Hc & Hf & _)].
    + rewrite Hn in Ht. discriminate.
    + rewrite Hs in Ht. injection Ht as <-. split; [exact Hf | exact Hc].
Qed.

Lemma create_ignores_completed_witness :
  ∃ t, data (Routes.post_todo any_iso no_dates alice 15 an_instant eager_body []).1
       = Some t
       ∧ Todo.text t = "Buy milk"
       ∧ Todo.completed t = false
       ∧ (Routes.post_todo any_iso no_dates alice 15 an_instant eager_body []).2 = [t].
Proof.
  eexists. split; [vm_compute; reflexivity|]. split; [reflexivity|].
  apply (create_ignores_completed any_iso no_dates alice 15 an_instant
           eager_body Js.VNull []).
  vm_compute. reflexivity.
Defined.

(** ** Editing in the clients *)

(** Offline component: a save whose text trims to nothing changes no task
    and leaves edit mode. *)
Lemma App_saveEdit_blank dp s :
  Js.trim (App.editText s) = EmptyString →
  App.todos (App.saveEdit dp s) = App.todos s
  ∧ App.editingId (App.saveEdit dp s) = None.
Proof. intros H. unfold App.saveEdit. rewrite H. simpl. done. Qed.

(** Backend-integrated component: the same save does nothing at all. In
    particular [editingId] keeps its value. *)
Lemma TodoApp_saveEdit_blank dp api s :
  Js.trim (TodoApp.editText s) = EmptyString →
  TodoApp.saveEdit dp api s = s.
Proof. intros H. unfold TodoApp.saveEdit. rewrite H. reflexivity. Qed.

(** C3, on a client editing task 11 with three blanks as text. Both
    components leave the tasks as they are. The offline one leaves edit
    mode; the backend-integrated one does not: it is still editing task 11
    afterwards, whatever the date parser and the API do. *)
Example saveEdit_blank_keeps_editing dp api :
  Js.trim (TodoApp.editText editing_blank) = EmptyString
  ∧ TodoApp.todos (TodoApp.saveEdit dp api editing_blank) = [task_A]
  ∧ TodoApp.editingId (TodoApp.saveEdit dp api editing_blank) = Some 11
  ∧ App.todos (App.saveEdit dp offline_editing_blank) = [offline_task]
  ∧ App.editingId (App.saveEdit dp offline_editing_blank) = None.
Proof. repeat split. Qed.

(** ** Listing: the search filter *)

Lemma parse_plain s : plain s = true → Regex.parse s = Some (literal s).
Proof.
  induction s as [|c r IH]; [reflexivity|]. simpl.
  intros H. apply andb_prop in H as [Hc Hr]. apply negb_true_iff in Hc.
  destruct (Ascii.eqb_spec c "\") as [->|_]; [discriminate|].
  destruct (Ascii.eqb_spec c ".") as [->|_]; [discriminate|].
  rewrite Hc, (IH Hr). reflexivity.
Qed.

Lemma match_here_literal s t :
  Regex.match_here (literal s) t = true
  ↔ ∃ post, Js.toLowerCase t = Js.toLowerCase s +:+ post.
Proof.
  revert t. induction s as [|c s IH]; intros t; simpl.
  - split; [intros _; exists (Js.toLowerCase t); reflexivity | reflexivity].
  - destruct t as [|x t]; simpl.
    + split; [discriminate | intros [post H]; discriminate].
    + rewrite andb_true_iff, Ascii.eqb_eq, IH. split.
      * intros [-> [post ->]]. exists post. reflexivity.
      * intros [post H]. injection H as Hx Ht. split; [congruence | eauto].
Qed.

(** On a literal pattern the store's search is the case-insensitive
    substring test. *)
Lemma search_literal s t :
  Regex.search (literal s) t = true ↔ ci_substring s t.
Proof.
  unfold ci_substring. induction t as [|x t IH]; simpl.
  - rewrite orb_false_r, match_here_literal. simpl. split.
    + intros [post H]. exists EmptyString, post. exact H.
    + intros [[|a pre] [post H]]; [exists post; exact H | discriminate].
  - rewrite orb_true_iff, IH, (match_here_literal s (String x t)). simpl. split.
    + intros [[post H] | (pre & post & H)].
      * exists EmptyString, post. exact H.
      * exists (String (Js.toLowerCase_char x) pre), post. simpl. rewrite H. reflexivity.
    + intros [[|a pre] [post H]].
      * left. exists post. exact H.
      * right. injection H as _ H. exists pre, post. exact H.
Qed.

(** The filter of a search string without metacharacters reads it as a
    literal. *)
Lemma build_filter_plain engine uid (q : Routes.Query) s :
  Routes.given (q !! "search") = Some s →
  plain s = true →
  Routes.build_filter engine uid q
  = Some (mkFilter uid ((λ v, String.eqb v "true") <$> q !! "completed")
            (Routes.given (q !! "category"))
            (Some (Regex.Fragment (literal s)))).
Proof.
  intros Hs Hp. unfold Routes.build_filter, Regex.compile.
  rewrite Hs, (parse_plain _ Hp). reflexivity.
Qed.

(** So for such a search string the text condition of the filter is the
    literal, case-insensitive substring test of the specification. *)
Lemma plain_search_is_substring engine uid (q : Routes.Query) s f x :
  Routes.given (q !! "search") = Some s →
  plain s = true →
  Routes.build_filter engine uid q = Some f →
  opt_test (f_text f) (λ r, Regex.test r (Todo.text x)) = true
  ↔ ci_substring s (Todo.text x).
Proof.
  intros Hs Hp Hf. rewrite (build_filter_plain _ _ _ _ Hs Hp) in Hf.
  injection Hf as <-. simpl. apply search_literal.
Qed.

(** The reply to a valid list request whose filter could be built. *)
Lemma get_todos_reply wb engine uid (q : Routes.Query) (c : Collection) f :
  Routes.validate_list q = true →
  Routes.build_filter engine uid (Routes.sanitize_list wb q) = Some f →
  let page := Js.parseInt_or (q !! "page") 1 in
  let limit := Js.parseInt_or (q !! "limit") 10 in
  let total := length (Model.find f c) in
  let totalPages := Routes.ceil_div (Z.of_nat total) limit in
  Routes.get_todos wb engine uid q c
  = mkReply 200 true
      (Some (take (Z.to_nat limit)
               (drop (Z.to_nat ((page - 1) * limit))
                  (Model.sort
                     (default "createdAt" (Routes.given (q !! "sortBy")))
                     (bool_decide (q !! "sortOrder" = Some "asc"))
                     (Model.find f c)))))
      (Some (mkPagination page totalPages
               (page <? totalPages)%Z (1 <? page)%Z total))
      None.
Proof.
  intros Hv Hf. unfold Routes.get_todos. rewrite Hv, Hf. simpl.
  rewrite !sanitize_list_other by done. reflexivity.
Qed.

(** A pattern the store rejects is not answered with a validation error:
    the query throws and the handler replies 500. *)
Lemma list_rejected_pattern wb engine uid (q : Routes.Query) (c : Collection) s :
  Routes.validate_list q = true →
  Routes.given (Routes.sanitize_list wb q !! "search") = Some s →
  Regex.parse s = None →
  engine s = None →
  Routes.get_todos wb engine uid q c = reply_error 500.
Proof.
  intros Hv Hs Hp He. unfold Routes.get_todos. rewrite Hv. simpl.
  unfold Routes.build_filter, Regex.compile. rewrite Hs, Hp, He. reflexivity.
Qed.

(** C2. The claim fails on the code, in both directions. The handler
    hands the search string to the store as a regular expression without
    escaping it. Searching the three characters a, dot, c returns the task whose
    text is abc, which does not contain them; searching the four
    characters a, backslash, dot, c omits the task whose text is exactly
    these four characters. Both searches pass validation, and the outcome
    is the same under either version of the framework and whatever the
    engine does beyond the fragment. *)
Theorem list_search_reads_a_pattern wb engine :
  Routes.validate_list dot_query = true
  ∧ Routes.validate_list escaped_query = true
  ∧ (∃ items,
       data (Routes.get_todos wb engine alice dot_query [task_C]) = Some items
       ∧ task_C ∈ items
       ∧ ¬ ci_substring "a.c" (Todo.text task_C))
  ∧ data (Routes.get_todos wb engine alice escaped_query [task_E]) = Some []
  ∧ Todo.user task_E = alice
  ∧ ci_substring "a\.c" (Todo.text task_E).
Proof.
  split; [reflexivity|]. split; [reflexivity|]. split; [|split; [|split]].
  - exists [task_C]. split; [destruct wb; vm_compute; reflexivity|].
    split; [apply list_elem_of_here|].
    rewrite <- search_literal. vm_compute. discriminate.
  - destruct wb; vm_compute; reflexivity.
  - reflexivity.
  - exists EmptyString, EmptyString. reflexivity.
Qed.


(** * Further properties of the handlers *)

(** ** Single tasks: fetch, create, update, delete *)

Lemma findOne_elem id uid (c : Collection) x :
  Model.findOne id uid c = Some x →
  x ∈ c ∧ Todo._id x = id ∧ Todo.user x = uid.
Proof.
  unfold Model.findOne. intros H. apply head_Some_elem_of in H.
  apply list_elem_of_filter in H as [Hp Hx]. split; [exact Hx|].
  unfold Model.by_id in Hp. apply andb_True in Hp as [H1 H2].
  apply Is_true_true in H1, H2. apply Nat.eqb_eq in H1, H2. done.
Qed.

Lemma findOne_none id uid (c : Collection) :
  (∀ y, y ∈ c → Todo._id y = id → Todo.user y ≠ uid) →
  Model.findOne id uid c = None.
Proof.
  intros H. unfold Model.findOne.
  destruct (head _) as [x|] eqn:E; [|reflexivity].
  apply findOne_elem in E as (Hx & Hi & Hu). destruct (H x Hx Hi Hu).
Qed.

Lemma unique_ids_cons x (c : Collection) :
  unique_ids (x :: c) ↔ (∀ y, y ∈ c → Todo._id y ≠ Todo._id x) ∧ unique_ids c.
Proof.
  unfold unique_ids. rewrite fmap_cons, NoDup_cons, list_elem_of_fmap. split.
  - intros [Hn Hd]. split; [|exact Hd]. intros y Hy He. apply Hn. exists y. done.
  - intros [Hn Hd]. split; [|exact Hd]. intros (y & He & Hy). apply (Hn y Hy). done.
Qed.

Lemma unique_ids_inj (c : Collection) x y :
  unique_ids c → x ∈ c → y ∈ c → Todo._id x = Todo._id y → x = y.
Proof.
  induction c as [|z c IH]; intros Hu Hx Hy He; [by apply elem_of_nil in Hx|].
  apply unique_ids_cons in Hu as [Hn Hu].
  apply elem_of_cons in Hx as [->|Hx], Hy as [->|Hy]; auto.
  - destruct (Hn y Hy). done.
  - destruct (Hn x Hx). done.
Qed.

Lemma findOne_unique (c : Collection) x :
  unique_ids c → x ∈ c →
  Model.findOne (Todo._id x) (Todo.user x) c = Some x.
Proof.
  intros Hu Hx.
  destruct (Model.findOne (Todo._id x) (Todo.user x) c) as [y|] eqn:E.
  - apply findOne_elem in E as (Hy & Hi & _).
    f_equal. apply (unique_ids_inj c); done.
  - unfold Model.findOne in E. apply head_None in E.
    assert (x ∈ filter (λ y, Model.by_id (Todo._id x) (Todo.user x) y) c) as Hin.
    { apply list_elem_of_filter. split; [|exact Hx].
      unfold Model.by_id. rewrite !Nat.eqb_refl. done. }
    rewrite E in Hin. by apply elem_of_nil in Hin.
Qed.

(** X1. A task is served to its owner and to nobody else: for the owner
    the reply is 200 with the task; for any other caller it is the very
    404 that an identifier no task carries, or a malformed one, gets. *)
Theorem get_todo_owner_scoped uid i (c : Collection) x :
  unique_ids c → x ∈ c → i ∉ Todo._id <$> c →
  Routes.get_todo (Some (Todo._id x)) (Todo.user x) c
  = mkReply 200 true (Some x) None None
  ∧ (uid ≠ Todo.user x →
     Routes.get_todo (Some (Todo._id x)) uid c = reply_error 404)
  ∧ Routes.get_todo (Some i) uid c = reply_error 404
  ∧ Routes.get_todo None uid c = reply_error 404.
Proof.
  intros Hu Hx Hi. unfold Routes.get_todo. simpl.
  rewrite (findOne_unique c x Hu Hx). split; [reflexivity|]. split.
  - intros Hne. rewrite findOne_none; [reflexivity|].
    intros y Hy He. rewrite (unique_ids_inj c y x Hu Hy Hx He). auto.
  - split; [|reflexivity]. rewrite findOne_none; [reflexivity|].
    intros y Hy He. destruct Hi. apply list_elem_of_fmap. exists y. done.
Qed.

Lemma get_todo_owner_scoped_witness :
  Routes.get_todo (Some 14) bob sample_tasks
  = mkReply 200 true (Some task_D) None None
  ∧ Routes.get_todo (Some 14) alice sample_tasks = reply_error 404
  ∧ Routes.get_todo (Some 99) alice sample_tasks = reply_error 404.
Proof.
  destruct (get_todo_owner_scoped alice 99 sample_tasks task_D)
    as (H1 & H2 & H3 & _); [compute_done | compute_done | compute_done |].
  split; [exact H1|]. split; [apply H2; compute_done | exact H3].
Defined.

Lemma post_todo_created iso dp uid fresh now (body : Routes.Body) (c : Collection) t :
  data (Routes.post_todo iso dp uid fresh now body c).1 = Some t →
  (Routes.post_todo iso dp uid fresh now body c).2 = (c ++ [t])%list
  ∧ Todo._id t = fresh ∧ Todo.user t = uid
  ∧ Todo.createdAt t = now ∧ Todo.updatedAt t = now.
Proof.
  unfold Routes.post_todo.
  destruct (Routes.validate_create iso body); simpl; [|discriminate].
  unfold Todo.create.
  destruct (Routes.given_value _) as [v|]; [destruct (Routes.new_Date dp v)|];
    simpl; try discriminate;
    match goal with |- context [if ?b then _ else _] => destruct b end;
    simpl; try discriminate; intros [= <-]; done.
Qed.

Lemma findOne_app_fresh (c : Collection) t :
  Todo._id t ∉ Todo._id <$> c →
  Model.findOne (Todo._id t) (Todo.user t) (c ++ [t]) = Some t.
Proof.
  intros Hf. unfold Model.findOne. rewrite filter_app.
  assert (filter (λ x, Model.by_id (Todo._id t) (Todo.user t) x) c = []) as ->.
  { apply head_None. apply (findOne_none (Todo._id t) (Todo.user t) c).
    intros y Hy He. destruct Hf. apply list_elem_of_fmap. exists y. done. }
  rewrite filter_cons. unfold Model.by_id. rewrite !Nat.eqb_refl. reflexivity.
Qed.

(** X2. Round trip: a task the create handler stored under a fresh
    identifier is what a fetch of that identifier by the same caller
    returns, field for field, and identifiers stay unique. *)
Theorem create_then_fetch iso dp uid fresh now (body : Routes.Body) (c : Collection) t :
  unique_ids c → fresh ∉ Todo._id <$> c →
  data (Routes.post_todo iso dp uid fresh now body c).1 = Some t →
  Routes.get_todo (Some fresh) uid (Routes.post_todo iso dp uid fresh now body c).2
  = mkReply 200 true (Some t) None None
  ∧ unique_ids (Routes.post_todo iso dp uid fresh now body c).2.
Proof.
  intros Hu Hf Ht. apply post_todo_created in Ht as (-> & Hi & Hw & _).
  subst fresh uid. unfold Routes.get_todo. simpl.
  rewrite (findOne_app_fresh c t Hf). split; [reflexivity|].
  unfold unique_ids. rewrite fmap_app. apply NoDup_app. split; [exact Hu|].
  split; [|apply NoDup_singleton].
  intros i Hi Hi'. apply list_elem_of_singleton in Hi'. subst i. done.
Qed.

Lemma create_then_fetch_witness :
  ∃ t, data (Routes.post_todo any_iso no_dates alice 15 an_instant eager_body
               sample_tasks).1 = Some t
       ∧ Routes.get_todo (Some 15) alice
           (Routes.post_todo any_iso no_dates alice 15 an_instant eager_body
              sample_tasks).2
         = mkReply 200 true (Some t) None None.
Proof.
  eexists. split; [vm_compute; reflexivity|].
  apply (create_then_fetch any_iso no_dates alice 15 an_instant eager_body
           sample_tasks); [compute_done | compute_done | vm_compute; reflexivity].
Defined.


(** *** Trimming *)

Lemma trimStart_clean s : starts_clean (Js.trimStart s).
Proof.
  induction s as [|c r IH]; simpl; [done|].
  destruct (Js.is_whitespace c) eqn:E; [exact IH | exact E].
Qed.

Lemma trimStart_of_clean s : starts_clean s → Js.trimStart s = s.
Proof. destruct s as [|c r]; simpl; [done|]. intros ->. reflexivity. Qed.

Lemma trimEnd_clean s : starts_clean s → starts_clean (Js.trimEnd s).
Proof.
  destruct s as [|c r]; simpl; [done|]. intros Hc.
  destruct (Js.trimEnd r); [rewrite Hc|]; exact Hc.
Qed.

Lemma trimEnd_idem s : Js.trimEnd (Js.trimEnd s) = Js.trimEnd s.
Proof.
  induction s as [|c r IH]; simpl; [reflexivity|].
  destruct (Js.trimEnd r) as [|a r'] eqn:E.
  - destruct (Js.is_whitespace c) eqn:Ec; simpl; [reflexivity|].
    rewrite Ec. reflexivity.
  - change (Js.trimEnd (String c (String a r'))) with
      (match Js.trimEnd (String a r') with
       | EmptyString =>
           if Js.is_whitespace c then EmptyString else String c EmptyString
       | r'' => String c r''
       end).
    rewrite IH. reflexivity.
Qed.

(** Trimming a trimmed string changes nothing. *)
Lemma trim_idem s : Js.trim (Js.trim s) = Js.trim s.
Proof.
  unfold Js.trim.
  rewrite (trimStart_of_clean (Js.trimEnd (Js.trimStart s)))
    by apply trimEnd_clean, trimStart_clean.
  apply trimEnd_idem.
Qed.

Lemma nonempty_true s : Js.nonempty s = true ↔ s ≠ EmptyString.
Proof. destruct s; simpl; split; intros; done. Qed.

(** X3. What the create handler stores meets the schema: the text is the
    trimmed text that was sent, not empty and at most 500 characters; the
    priority is one of the three levels, medium when none was sent; a
    category, when stored, is not empty and at most 50 characters; without
    a deadline in the request the task has none. A request whose text is
    missing or blank is answered with 400 and stores nothing. *)
Theorem created_task_meets_schema iso dp uid fresh now (body : Routes.Body)
    (c : Collection) :
  let sent := Js.trim (from_option Js.toString EmptyString (body !! "text")) in
  let out := Routes.post_todo iso dp uid fresh now body c in
  (sent = EmptyString → out = (reply_error 400, c))
  ∧ ∀ t, data out.1 = Some t →
      Todo.text t = sent
      ∧ sent ≠ EmptyString
      ∧ (String.length (Todo.text t) ≤ 500)%nat
      ∧ Todo.priority t ∈ ["low"; "medium"; "high"]
      ∧ (body !! "priority" = None → Todo.priority t = "medium")
      ∧ (∀ s, Todo.category t = Some s →
              s ≠ EmptyString ∧ (String.length s ≤ 50)%nat)
      ∧ (body !! "deadline" = None → Todo.deadline t = None).
Proof.
  intros sent out. subst out. unfold Routes.post_todo. split.
  - intros H. unfold Routes.validate_create. fold sent. rewrite H. reflexivity.
  - intros t.
    destruct (Routes.validate_create iso body) eqn:Hv; simpl; [|discriminate].
    unfold Routes.validate_create in Hv. fold sent in Hv.
    repeat (apply andb_prop in Hv as [Hv ?]).
    rewrite sanitize_create_text, sanitize_create_category.
    rewrite !(sanitize_create_other _ "deadline"),
            !(sanitize_create_other _ "priority") by done.
    fold sent. simpl.
    assert (∀ d, let t' :=
                   Todo.new_document fresh now
                     {| Todo.d_text := sent; Todo.d_user := uid;
                        Todo.d_completed := None; Todo.d_deadline := d;
                        Todo.d_priority :=
                          Js.toString <$> Routes.given_value (body !! "priority");
                        Todo.d_category :=
                          Js.toString <$>
                            Routes.given_value
                              ((λ v, Js.VStr (Js.trim (Js.toString v)))
                                 <$> body !! "category") |} in
              Todo.text t' = sent
              ∧ sent ≠ EmptyString
              ∧ (String.length (Todo.text t') ≤ 500)%nat
              ∧ Todo.priority t' ∈ ["low"; "medium"; "high"]
              ∧ (body !! "priority" = None → Todo.priority t' = "medium")
              ∧ (∀ s, Todo.category t' = Some s →
                      s ≠ EmptyString ∧ (String.length s ≤ 50)%nat)) as Hall.
    { intros d t'. subst t'. unfold Todo.new_document. simpl.
      assert (Js.trim sent = sent) as Hs by apply trim_idem.
      rewrite Hs. split; [reflexivity|].
      split; [by apply nonempty_true|].
      split; [by apply Nat.leb_le|].
      split; [|split].
      - destruct (body !! "priority") as [v|]; simpl in *; [|compute_done].
        match goal with H : Routes.isIn _ _ = true |- _ =>
          apply bool_decide_eq_true in H; rename H into Hin end.
        destruct (Js.truthy v); simpl; [exact Hin | compute_done].
      - intros ->. reflexivity.
      - intros s. destruct (body !! "category") as [v|]; simpl in *; [|discriminate].
        destruct (Js.trim (Js.toString v)) as [|a r] eqn:E; simpl; [discriminate|].
        rewrite <- E, trim_idem. intros [= <-]. rewrite E. split; [done|].
        match goal with H : Routes.isLength_max 50 _ = true |- _ =>
          apply Nat.leb_le in H; exact H end. }
    unfold Todo.create.
    destruct (Routes.given_value (body !! "deadline")) as [v|] eqn:Hd.
    + destruct (Routes.new_Date dp v) as [d|]; simpl; [|discriminate].
      match goal with |- context [if ?b then _ else _] => destruct b end;
        simpl; [|discriminate].
      intros [= <-]. destruct (Hall (Some d)) as (?&?&?&?&?&?).
      repeat (split; [done|]). intros Hn. rewrite Hn in Hd. discriminate.
    + simpl.
      match goal with |- context [if ?b then _ else _] => destruct b end;
        simpl; [|discriminate].
      intros [= <-]. destruct (Hall None) as (?&?&?&?&?&?).
      repeat (split; [done|]). reflexivity.
Qed.

Lemma created_task_meets_schema_witness :
  Routes.post_todo any_iso no_dates alice 15 an_instant blank_body sample_tasks
  = (reply_error 400, sample_tasks)
  ∧ Routes.post_todo any_iso no_dates alice 15 an_instant nbsp_body sample_tasks
    = (reply_error 400, sample_tasks)
  ∧ ∃ t, data (Routes.post_todo any_iso no_dates alice 15 an_instant eager_body []).1
         = Some t
         ∧ Todo.text t = "Buy milk" ∧ Todo.priority t = "medium".
Proof.
  split; [|split].
  - apply (created_task_meets_schema any_iso no_dates alice 15 an_instant
             blank_body sample_tasks). reflexivity.
  - apply (created_task_meets_schema any_iso no_dates alice 15 an_instant
             nbsp_body sample_tasks). reflexivity.
  - eexists. split; [vm_compute; reflexivity|].
    destruct (created_task_meets_schema any_iso no_dates alice 15 an_instant
                eager_body []) as [_ H].
    edestruct H as (H1 & _ & _ & _ & H5 & _); [vm_compute; reflexivity|].
    split; [exact H1 | apply H5; reflexivity].
Defined.

(** *** Updates *)

Lemma sanitize_update_text (body : Routes.Body) :
  Routes.sanitize_update body !! "text" = Routes.trimmed <$> body !! "text".
Proof.
  unfold Routes.sanitize_update.
  destruct (body !! "category"), (body !! "text") eqn:E; simpl;
    rewrite ?lookup_insert_ne by done; rewrite ?lookup_insert_eq; done.
Qed.

Lemma sanitize_update_category (body : Routes.Body) :
  Routes.sanitize_update body !! "category" = Routes.trimmed <$> body !! "category".
Proof.
  unfold Routes.sanitize_update.
  destruct (body !! "category") eqn:E; simpl; [apply lookup_insert_eq|].
  destruct (body !! "text"); rewrite ?lookup_insert_ne by done; done.
Qed.

Lemma sanitize_update_other (body : Routes.Body) k :
  k ≠ "text" → k ≠ "category" →
  Routes.sanitize_update body !! k = body !! k.
Proof.
  intros Ht Hc. unfold Routes.sanitize_update.
  destruct (body !! "category"), (body !! "text");
    rewrite ?lookup_insert_ne by done; done.
Qed.

(** What the assignments of an update do to a loaded document. *)
Lemma assign_fields dp (body : Routes.Body) x u :
  Routes.assign dp (Routes.sanitize_update body) x = Some u →
  Todo._id u = Todo._id x ∧ Todo.user u = Todo.user x
  ∧ Todo.createdAt u = Todo.createdAt x ∧ Todo.updatedAt u = Todo.updatedAt x
  ∧ Todo.text u
    = from_option (λ v, Js.trim (Js.toString v)) (Todo.text x) (body !! "text")
  ∧ (body !! "completed" = None → Todo.completed u = Todo.completed x)
  ∧ (∀ v, body !! "completed" = Some v → Routes.castBoolean v = Some (Todo.completed u))
  ∧ (body !! "deadline" = None → Todo.deadline u = Todo.deadline x)
  ∧ (body !! "deadline" = Some Js.VNull → Todo.deadline u = None)
  ∧ (body !! "deadline" = Some (Js.VStr EmptyString) → Todo.deadline u = None)
  ∧ Todo.priority u = from_option Js.toString (Todo.priority x) (body !! "priority")
  ∧ Todo.category u
    = from_option (λ v, Some (Js.trim (Js.toString v))) (Todo.category x)
        (body !! "category").
Proof.
  unfold Routes.assign.
  rewrite sanitize_update_text, sanitize_update_category.
  rewrite !(sanitize_update_other _ "completed"),
          !(sanitize_update_other _ "deadline"),
          !(sanitize_update_other _ "priority") by done.
  intros H. apply bind_Some in H as (b & Hb & H).
  apply bind_Some in H as (d & Hd & H). injection H as <-. simpl.
  repeat split.
  - destruct (body !! "text") as [v|]; simpl; [|reflexivity].
    apply trim_idem.
  - intros Hn. rewrite Hn in Hb. congruence.
  - intros v Hv. rewrite Hv in Hb. exact Hb.
  - intros Hn. rewrite Hn in Hd. congruence.
  - intros Hn. rewrite Hn in Hd. congruence.
  - intros Hn. rewrite Hn in Hd. congruence.
  - destruct (body !! "category") as [v|]; simpl; [|reflexivity].
    rewrite trim_idem. reflexivity.
Qed.

Lemma stamp_fields now x u :
  let t := Model.stamp now x u in
  Todo._id t = Todo._id u ∧ Todo.user t = Todo.user u
  ∧ Todo.text t = Todo.text u ∧ Todo.completed t = Todo.completed u
  ∧ Todo.deadline t = Todo.deadline u ∧ Todo.priority t = Todo.priority u
  ∧ Todo.category t = Todo.category u ∧ Todo.createdAt t = Todo.createdAt u
  ∧ (u = x ∧ t = x ∨ u ≠ x ∧ Todo.updatedAt t = now).
Proof.
  unfold Model.stamp. simpl. destruct (decide (u = x)) as [->|Hne]; simpl.
  - repeat split; try reflexivity. left. done.
  - repeat split; try reflexivity. right. done.
Qed.

(** A decimal numeral does not begin with a letter. *)
Lemma pretty_N_go_ne_letter x c s s' :
  (∀ d, pretty_N_char d ≠ c) →
  s ≠ String c s' → pretty_N_go x s ≠ String c s'.
Proof.
  intros Hc. revert s. induction (N.lt_wf_0 x) as [x _ IH]; intros s Hs.
  assert (x = 0 ∨ 0 < x)%N as [->|Hpos] by lia.
  - by rewrite pretty_N_go_0.
  - rewrite pretty_N_go_step by done. apply IH.
    { by apply N.div_lt. }
    intros [= He _]. exact (Hc _ He).
Qed.

Lemma pretty_Z_ne_letter (n : Z) c s' :
  (∀ d, pretty_N_char d ≠ c) → c ≠ "-"%char → c ≠ "0"%char →
  pretty n ≠ String c s'.
Proof.
  intros Hc Hd H0. unfold pretty, pretty_Z. destruct n as [|p|p].
  - intros [= He _]. by destruct H0.
  - unfold pretty, pretty_positive, pretty, pretty_N. simpl.
    apply pretty_N_go_ne_letter; [exact Hc | discriminate].
  - simpl. intros [= He _]. by destruct Hd.
Qed.

Lemma castBoolean_of_valid v :
  Routes.isBoolean (Js.toString v) = true → is_Some (Routes.castBoolean v).
Proof.
  unfold Routes.isBoolean, Routes.isIn. intros H. apply bool_decide_eq_true in H.
  destruct v as [|b|n Hn|s]; simpl in *.
  - exfalso. revert H. compute_done.
  - eauto.
  - assert (n = 1%Z ∨ n = 0%Z) as [-> | ->]; [|eauto..].
    repeat (apply elem_of_cons in H as [H|H]);
      [..| by apply elem_of_nil in H].
    + exfalso. revert H. apply pretty_Z_ne_letter; [|done..].
      intros d. unfold pretty_N_char. by repeat case_match.
    + exfalso. revert H. apply pretty_Z_ne_letter; [|done..].
      intros d. unfold pretty_N_char. by repeat case_match.
    + left. change "1" with (pretty 1%Z) in H. by apply (inj pretty) in H.
    + right. change "0" with (pretty 0%Z) in H. by apply (inj pretty) in H.
  - unfold Routes.castBoolean, Routes.isIn.
    repeat (apply elem_of_cons in H as [->|H]); [eauto..|].
    by apply elem_of_nil in H.
Qed.

(** The values of a validated body can all be cast to their paths. *)
Lemma assign_of_valid dp (body : Routes.Body) x :
  Routes.validate_update dp body = true →
  is_Some (Routes.assign dp (Routes.sanitize_update body) x).
Proof.
  unfold Routes.validate_update. intros H.
  repeat (apply andb_prop in H as [H ?]).
  unfold Routes.assign.
  rewrite !(sanitize_update_other _ "completed"),
          !(sanitize_update_other _ "deadline") by done.
  assert (is_Some (match body !! "completed" with
                   | Some v => Routes.castBoolean v
                   | None => Some (Todo.completed x)
                   end)) as [b ->].
  { destruct (body !! "completed") as [v|]; simpl in *;
      [by apply castBoolean_of_valid | eauto]. }
  simpl.
  assert (is_Some (match body !! "deadline" with
                   | Some Js.VNull => Some None
                   | Some (Js.VStr EmptyString) => Some None
                   | Some v => Some <$> Routes.new_Date dp v
                   | None => Some (Todo.deadline x)
                   end)) as [d ->]; [|simpl; eauto].
  destruct (body !! "deadline") as [v|]; simpl in *; [|eauto].
  match goal with Hd : Routes.valid_deadline _ _ = true |- _ =>
    unfold Routes.valid_deadline in Hd;
    destruct v as [|b'|n Hn|[|a s]]; eauto;
      apply bool_decide_eq_true in Hd as [d Hd]; rewrite Hd; simpl; eauto
  end.
Qed.

(** The outcomes of an update. *)
Lemma put_todo_cases dp id uid now (body : Routes.Body) (c : Collection) :
  let out := Routes.put_todo dp id uid now body c in
  out = (reply_error 400, c)
  ∨ out = (reply_error 404, c) ∧ id ≫= (λ i, Model.findOne i uid c) = None
  ∨ out = (reply_error 500, c) ∧ is_Some (id ≫= (λ i, Model.findOne i uid c))
  ∨ ∃ i x u,
      id = Some i ∧ Model.findOne i uid c = Some x
      ∧ Routes.assign dp (Routes.sanitize_update body) x = Some u
      ∧ out = (mkReply 200 true (Some (Model.stamp now x u)) None None,
               Model.save (Model.stamp now x u) c).
Proof.
  unfold Routes.put_todo.
  destruct (Routes.validate_update dp body) eqn:Hv; simpl; [|left; done].
  right. destruct id as [i|]; simpl; [|left; done].
  destruct (Model.findOne i uid c) as [x|] eqn:Hf; [|left; done].
  right. destruct (Routes.assign dp (Routes.sanitize_update body) x) as [u|] eqn:Hu;
    [|left; eauto].
  destruct (Model.validate x u); [|left; eauto].
  right. exists i, x, u. done.
Qed.

Lemma save_unique (c : Collection) x u :
  unique_ids c → x ∈ c → Todo._id u = Todo._id x →
  Model.save u c = (λ y, if decide (y = x) then u else y) <$> c.
Proof.
  unfold Model.save. intros Hu Hx He. rewrite He. clear He.
  induction c as [|y r IH]; [reflexivity|]. simpl.
  apply unique_ids_cons in Hu as Hu'. destruct Hu' as [Hn Hr].
  destruct (Nat.eqb_spec (Todo._id y) (Todo._id x)) as [Hi|Hi].
  - assert (y = x) as -> by (apply (unique_ids_inj (y :: r)); [done|left|done..]).
    rewrite decide_True by done. f_equal.
    symmetry. etrans; [|apply list_fmap_id]. apply list_fmap_ext.
    intros k z Hz. rewrite decide_False; [done|].
    intros Hzx. apply list_elem_of_lookup_2 in Hz. rewrite Hzx in Hz.
    by destruct (Hn x Hz).
  - rewrite decide_False by congruence. f_equal. apply IH; [exact Hr|].
    apply elem_of_cons in Hx as [->|Hx]; [done | exact Hx].
Qed.



Lemma fmap_replace_same {B} (f : Todo.t → B) (c : Collection) x t :
  f t = f x →
  f <$> ((λ y, if decide (y = x) then t else y) <$> c) = f <$> c.
Proof.
  intros He. rewrite <- list_fmap_compose. apply list_fmap_ext.
  intros _ y _. simpl. case_decide; congruence.
Qed.

(** X5. An update touches one task and nothing else: the reply is 200,
    400, 404 or 500; unless it is 200 the collection is as before; in
    every case the collection keeps its length and, position by position,
    the identifiers, owners and creation times; every task other than the
    addressed one is still there unchanged; and a fetch right after a
    successful update returns the task of the reply. *)
Theorem update_touches_one_task dp id uid now (body : Routes.Body) (c : Collection) :
  unique_ids c →
  let out := Routes.put_todo dp id uid now body c in
  status out.1 ∈ [200; 400; 404; 500]
  ∧ (status out.1 ≠ 200 → out.2 = c)
  ∧ (status out.1 = 200 → is_Some (data out.1))
  ∧ length out.2 = length c
  ∧ Todo._id <$> out.2 = Todo._id <$> c
  ∧ Todo.user <$> out.2 = Todo.user <$> c
  ∧ Todo.createdAt <$> out.2 = Todo.createdAt <$> c
  ∧ unique_ids out.2
  ∧ (∀ y, y ∈ c → Some (Todo._id y) ≠ id → y ∈ out.2)
  ∧ (∀ t, data out.1 = Some t →
          Routes.get_todo id uid out.2 = mkReply 200 true (Some t) None None).
Proof.
  intros Hu out. subst out.
  destruct (put_todo_cases dp id uid now body c)
    as [H | [[H _] | [[H _] | (i & x & u & -> & Hf & Ha & H)]]]; rewrite H; simpl.
  1-3: split; [compute_done|]; split; [done|]; split; [intros [=]|];
       do 6 (split; [done|]); intros t [=].
  apply findOne_elem in Hf as (Hx & Hi & Hw).
  apply assign_fields in Ha as (Ai & Aw & Ac & _).
  destruct (stamp_fields now x u) as (S1 & S2 & _ & _ & _ & _ & _ & S8 & _).
  set (t := Model.stamp now x u) in *.
  assert (Todo._id t = Todo._id x) as Ti by congruence.
  assert (Todo.user t = Todo.user x) as Tw by congruence.
  assert (Todo.createdAt t = Todo.createdAt x) as Tc by congruence.
  rewrite (save_unique c x t Hu Hx Ti).
  assert (Todo._id <$> ((λ y, if decide (y = x) then t else y) <$> c)
          = Todo._id <$> c) as Hids by (by apply fmap_replace_same).
  split; [compute_done|]. split; [done|]. split; [eauto|].
  split; [apply length_fmap|]. split; [exact Hids|].
  split; [by apply fmap_replace_same|]. split; [by apply fmap_replace_same|].
  assert (unique_ids ((λ y, if decide (y = x) then t else y) <$> c)) as Hu'
    by (unfold unique_ids; rewrite Hids; exact Hu).
  split; [exact Hu'|]. split.
  - intros y Hy Hne. apply list_elem_of_fmap. exists y.
    split; [|exact Hy]. rewrite decide_False; [done|]. intros ->. congruence.
  - intros t' [= <-]. unfold Routes.get_todo. simpl.
    rewrite <- Hi, <- Ti, <- Hw, <- Tw. rewrite findOne_unique; [done | exact Hu' |].
    apply list_elem_of_fmap. exists x. rewrite decide_True by done. done.
Qed.

Lemma update_touches_one_task_witness :
  let out := Routes.put_todo no_dates (Some 12) alice an_instant clearing_body
               sample_tasks in
  status out.1 = 200
  ∧ length out.2 = 4
  ∧ task_A ∈ out.2 ∧ task_D ∈ out.2.
Proof.
  destruct (update_touches_one_task no_dates (Some 12) alice an_instant
              clearing_body sample_tasks)
    as (_ & _ & _ & H3 & _ & _ & _ & _ & H8 & _); [compute_done|].
  split; [reflexivity|]. split; [exact H3|].
  split; apply H8; compute_done.
Defined.

(** *** Deletion *)

Lemma filter_ne_absent (c : Collection) x :
  x ∉ c → filter (λ y, y ≠ x) c = c.
Proof.
  induction c as [|y r IH]; [reflexivity|]. intros Hn.
  rewrite not_elem_of_cons in Hn. destruct Hn as [Hne Hn].
  rewrite filter_cons, decide_True by congruence. f_equal. by apply IH.
Qed.

Lemma unique_ids_head_absent x (c : Collection) :
  unique_ids (x :: c) → x ∉ c.
Proof.
  intros Hu Hx. apply unique_ids_cons in Hu as [Hn _]. by destruct (Hn x Hx).
Qed.

Lemma delete_first_unique (c : Collection) x :
  unique_ids c → x ∈ c →
  Model.delete_first (Model.by_id (Todo._id x) (Todo.user x)) c
  = filter (λ y, y ≠ x) c.
Proof.
  intros Hu Hx. induction c as [|y r IH]; [reflexivity|]. simpl.
  pose proof Hu as Hu'. apply unique_ids_cons in Hu' as [Hn Hr].
  rewrite filter_cons. unfold Model.by_id at 1.
  destruct (Nat.eqb_spec (Todo._id y) (Todo._id x)) as [Hi|Hi]; simpl.
  - assert (y = x) as -> by (apply (unique_ids_inj (y :: r)); [done|left|done..]).
    rewrite Nat.eqb_refl, decide_False by (intros H; by apply H).
    symmetry. apply filter_ne_absent. by apply unique_ids_head_absent.
  - rewrite decide_True by congruence. f_equal. apply IH; [exact Hr|].
    apply elem_of_cons in Hx as [->|Hx]; [done | exact Hx].
Qed.

Lemma unique_ids_filter (P : Todo.t → Prop) `{∀ x, Decision (P x)} (c : Collection) :
  unique_ids c → unique_ids (filter P c).
Proof.
  unfold unique_ids. intros Hu.
  eapply sublist_NoDup; [exact Hu | apply fmap_sublist, sublist_filter].
Qed.

(** X6. Deleting a task as its owner removes that task and only it: the
    reply is 200, the collection is the old one without the task (one
    shorter, the other tasks in place), a fetch of the identifier is
    answered with 404 from then on, and so is a second delete, which
    changes nothing. *)
Theorem delete_removes_one_task (c : Collection) x :
  unique_ids c → x ∈ c →
  let out := Routes.delete_todo (Some (Todo._id x)) (Todo.user x) c in
  out = (mkReply 200 true None None None, filter (λ y, y ≠ x) c)
  ∧ S (length out.2) = length c
  ∧ ¬ x ∈ out.2
  ∧ (∀ y, y ∈ c → y ≠ x → y ∈ out.2)
  ∧ unique_ids out.2
  ∧ Routes.get_todo (Some (Todo._id x)) (Todo.user x) out.2 = reply_error 404
  ∧ Routes.delete_todo (Some (Todo._id x)) (Todo.user x) out.2
    = (reply_error 404, out.2).
Proof.
  intros Hu Hx out. subst out.
  unfold Routes.delete_todo, Model.findOneAndDelete.
  rewrite (findOne_unique c x Hu Hx), (delete_first_unique c x Hu Hx). simpl.
  assert (x ∉ filter (λ y, y ≠ x) c) as Hgone.
  { intros H. apply list_elem_of_filter in H as [H _]. by apply H. }
  assert (Model.findOne (Todo._id x) (Todo.user x) (filter (λ y, y ≠ x) c) = None)
    as Hnone.
  { apply findOne_none. intros y Hy Hi Hw.
    apply list_elem_of_filter in Hy as [Hne Hy].
    apply Hne. by apply (unique_ids_inj c). }
  split; [reflexivity|]. split.
  - clear Hgone Hnone. induction c as [|y r IH]; [by apply elem_of_nil in Hx|].
    rewrite filter_cons. destruct (decide (y = x)) as [->|Hne].
    + rewrite decide_False by (intros H; by apply H).
      rewrite filter_ne_absent by (by apply unique_ids_head_absent). simpl. lia.
    + rewrite decide_True by done. simpl.
      apply unique_ids_cons in Hu as [_ Hr].
      apply elem_of_cons in Hx as [->|Hx]; [done|].
      specialize (IH Hr Hx). lia.
  - split; [exact Hgone|]. split.
    { intros y Hy Hne. apply list_elem_of_filter. done. }
    split; [by apply unique_ids_filter|].
    unfold Routes.get_todo. simpl. rewrite Hnone. done.
Qed.

Lemma delete_removes_one_task_witness :
  Routes.delete_todo (Some 12) alice sample_tasks
  = (mkReply 200 true None None None, [task_A; task_C; task_D])
  ∧ Routes.get_todo (Some 12) alice [task_A; task_C; task_D] = reply_error 404.
Proof.
  destruct (delete_removes_one_task sample_tasks task_B)
    as (H1 & _ & _ & _ & _ & H6 & _); [compute_done | compute_done |].
  split; [exact H1 | exact H6].
Defined.

(** X7. A caller who does not own a task can neither change nor remove
    it: an update is answered with 404 (or 400 for an invalid body) and a
    delete with 404, and the collection stays as it was. *)
Theorem foreign_task_is_out_of_reach dp uid now (body : Routes.Body)
    (c : Collection) x :
  unique_ids c → x ∈ c → uid ≠ Todo.user x →
  let out := Routes.put_todo dp (Some (Todo._id x)) uid now body c in
  out.2 = c ∧ data out.1 = None ∧ status out.1 ∈ [400; 404]
  ∧ Routes.delete_todo (Some (Todo._id x)) uid c = (reply_error 404, c).
Proof.
  intros Hu Hx Hne out. subst out.
  assert (Model.findOne (Todo._id x) uid c = None) as Hnone.
  { apply findOne_none. intros y Hy Hi Hw.
    rewrite (unique_ids_inj c y x Hu Hy Hx Hi) in Hw. congruence. }
  split_and!.
  1-3: destruct (put_todo_cases dp (Some (Todo._id x)) uid now body c)
    as [H | [[H _] | [[_ [y Hy]] | (i & x' & u & [= <-] & Hf & _)]]];
    [rewrite H; simpl; first [done | compute_done] ..
    | simpl in Hy; congruence | congruence].
  unfold Routes.delete_todo, Model.findOneAndDelete. rewrite Hnone. done.
Qed.

Lemma foreign_task_is_out_of_reach_witness :
  (Routes.put_todo no_dates (Some 14) alice an_instant clearing_body sample_tasks).2
  = sample_tasks
  ∧ Routes.delete_todo (Some 14) alice sample_tasks = (reply_error 404, sample_tasks).
Proof.
  destruct (foreign_task_is_out_of_reach no_dates alice an_instant clearing_body
              sample_tasks task_D) as (H1 & _ & _ & H4);
    [compute_done | compute_done | compute_done |].
  split; [exact H1 | exact H4].
Defined.

(** ** Bulk actions, continued *)

Lemma matches_by_user_iff uid b x :
  matches (Routes.by_user uid b) x
  ↔ Todo.user x = uid ∧ ∀ b', b = Some b' → Todo.completed x = b'.
Proof.
  rewrite matches_by_user, andb_True, Is_true_true, Nat.eqb_eq.
  destruct b as [b|]; simpl.
  - rewrite Is_true_true, Bool.eqb_true_iff. split.
    + intros [? ?]. split; [done|]. intros b' [= <-]. done.
    + intros [? H]. split; [done|]. by apply H.
  - split; [intros [? _]; split; [done|]; intros ? [=] | intros [? _]; done].
Qed.

Lemma length_find_completed uid (c : Collection) :
  length (Model.find (Routes.by_user uid (Some true)) c)
  = count_completed (owned uid c).
Proof.
  unfold Model.find, owned, count_completed.
  induction c as [|x c IH]; [reflexivity|].
  rewrite !filter_cons, matches_by_user. simpl.
  destruct (Nat.eqb_spec (Todo.user x) uid) as [E|E].
  - rewrite (decide_True (P := Todo.user x = uid)) by exact E.
    rewrite filter_cons. destruct (Todo.completed x); simpl; rewrite IH; reflexivity.
  - rewrite (decide_False (P := Todo.user x = uid)) by exact E. simpl. exact IH.
Qed.

Lemma patch_bulk_delete_completed uid now (c : Collection) :
  Routes.patch_bulk uid now (bulk_body "delete-completed") c
  = (bulk_reply (count_completed (owned uid c)),
     filter (λ x, ¬ matches (Routes.by_user uid (Some true)) x) c).
Proof.
  unfold Routes.patch_bulk, bulk_body. rewrite lookup_singleton_eq. simpl.
  rewrite length_find_completed. unfold bulk_reply, Routes.or_count. simpl.
  destruct (count_completed (owned uid c)); reflexivity.
Qed.

(** X8. The bulk action delete-completed removes exactly the owner's
    completed tasks: the count it reports is their number, what remains is
    the collection without them (every pending task of the owner and every
    task of anyone else stays, in place), and a second invocation reports
    0 and changes nothing. *)
Theorem bulk_delete_completed uid now now' (c : Collection) :
  let out := Routes.patch_bulk uid now (bulk_body "delete-completed") c in
  out = (bulk_reply (count_completed (owned uid c)),
         filter (λ x, ¬ (Todo.user x = uid ∧ Todo.completed x = true)) c)
  ∧ count_completed (owned uid out.2) = 0
  ∧ (∀ x, x ∈ out.2 ↔ x ∈ c ∧ ¬ (Todo.user x = uid ∧ Todo.completed x = true))
  ∧ Routes.patch_bulk uid now' (bulk_body "delete-completed") out.2
    = (bulk_reply 0, out.2).
Proof.
  intros out. subst out. rewrite patch_bulk_delete_completed. simpl.
  set (f := Routes.by_user uid (Some true)).
  assert (filter (λ x, ¬ matches f x) c
          = filter (λ x, ¬ (Todo.user x = uid ∧ Todo.completed x = true)) c) as Hf.
  { apply list_filter_iff. intros x. unfold f. rewrite matches_by_user_iff.
    split; intros H [Hu Hc]; apply H; split; try done.
    - intros b' [= <-]. done.
    - by apply Hc. }
  assert (count_completed (owned uid (filter (λ x, ¬ matches f x) c)) = 0) as H0.
  { unfold f. rewrite <- length_find_completed, find_after_delete. reflexivity. }
  split; [rewrite Hf; reflexivity|]. split; [exact H0|]. split.
  - intros x. rewrite Hf, list_elem_of_filter. tauto.
  - rewrite patch_bulk_delete_completed. fold f. rewrite H0, delete_twice.
    reflexivity.
Qed.

Lemma owned_after_delete uid uid' b (c : Collection) :
  uid' ≠ uid →
  owned uid' (filter (λ x, ¬ matches (Routes.by_user uid b) x) c) = owned uid' c.
Proof.
  intros Hne. unfold owned. rewrite list_filter_filter.
  apply list_filter_iff. intros x. rewrite matches_by_user_iff. split.
  - intros [H _]. exact H.
  - intros H. split; [exact H|]. intros [Hu _]. congruence.
Qed.

Lemma owned_after_update uid uid' b b' now (c : Collection) :
  uid' ≠ uid →
  owned uid'
    ((λ x, if matches (Routes.by_user uid b) x
           then Todo.set_completed b' now x else x) <$> c)
  = owned uid' c.
Proof.
  intros Hne. unfold owned. induction c as [|x c IH]; [reflexivity|].
  rewrite fmap_cons, !filter_cons, IH.
  destruct (matches (Routes.by_user uid b) x) eqn:E; [|reflexivity].
  apply Is_true_true, matches_by_user_iff in E as [Hu _]. simpl.
  rewrite !decide_False by congruence. reflexivity.
Qed.

(** X9. Bulk actions are scoped to the caller: whatever the body of the
    request, the tasks of every other owner are the same afterwards, and
    so are that owner's statistics. *)
Theorem bulk_leaves_other_owners_alone uid uid' now now' (body : Routes.Body)
    (c : Collection) :
  uid' ≠ uid →
  owned uid' (Routes.patch_bulk uid now body c).2 = owned uid' c
  ∧ Routes.get_stats uid' now' (Routes.patch_bulk uid now body c).2
    = Routes.get_stats uid' now' c.
Proof.
  intros Hne.
  assert (owned uid' (Routes.patch_bulk uid now body c).2 = owned uid' c) as Ho.
  { unfold Routes.patch_bulk.
    destruct (negb _); [reflexivity|].
    destruct (body !! "action") as [[| | |a]|]; simpl; try reflexivity.
    unfold Routes.bulk_switch.
    destruct (String.eqb a "complete-all");
      [apply owned_after_update; exact Hne|].
    destruct (String.eqb a "delete-completed");
      [apply owned_after_delete; exact Hne|].
    destruct (String.eqb a "delete-all");
      [apply owned_after_delete; exact Hne | reflexivity]. }
  split; [exact Ho|]. rewrite !get_stats_counts, Ho. reflexivity.
Qed.

Lemma bulk_leaves_other_owners_alone_witness :
  owned bob (Routes.patch_bulk alice an_instant (bulk_body "delete-all")
               sample_tasks).2 = [task_D].
Proof.
  apply (bulk_leaves_other_owners_alone alice bob an_instant an_instant
           (bulk_body "delete-all") sample_tasks). compute_done.
Defined.

Lemma owned_after_complete uid now (c : Collection) :
  length (owned uid (complete_one uid now <$> c)) = length (owned uid c).
Proof.
  unfold owned, complete_one. induction c as [|x c IH]; [reflexivity|].
  rewrite fmap_cons, !filter_cons.
  destruct (matches _ x); simpl;
    destruct (decide (Todo.user x = uid)); simpl; rewrite IH; reflexivity.
Qed.

(** X10. Statistics after a bulk action of the same owner: after
    complete-all every task of the owner counts as completed and none as
    pending or overdue, with the total unchanged; after delete-all the
    four counts are 0. *)
Theorem stats_after_bulk uid now now' (c : Collection) :
  data (Routes.get_stats uid now'
          (Routes.patch_bulk uid now (bulk_body "complete-all") c).2)
  = Some {| Stats.total := length (owned uid c);
            Stats.completed := length (owned uid c);
            Stats.pending := 0; Stats.overdue := 0 |}
  ∧ data (Routes.get_stats uid now'
            (Routes.patch_bulk uid now (bulk_body "delete-all") c).2)
    = Some Stats.zero.
Proof.
  rewrite patch_bulk_complete_all, patch_bulk_delete_all, !get_stats_counts.
  simpl. split.
  - set (c1 := complete_one uid now <$> c).
    assert (count_pending (owned uid c1) = 0) as Hp
      by (rewrite <- length_find_pending; unfold c1;
          rewrite find_after_complete; reflexivity).
    pose proof (counted_overdue_pending now' (owned uid c1)) as Ho.
    pose proof (completed_or_pending (owned uid c1)) as Ht.
    pose proof (owned_after_complete uid now c) as Hl. fold c1 in Hl.
    do 2 f_equal; lia.
  - rewrite <- (find_by_user_all uid (filter _ c)), find_after_delete.
    reflexivity.
Qed.

(** ** Listing, continued *)

Lemma build_filter_plain_empty wb engine uid :
  Routes.build_filter engine uid (Routes.sanitize_list wb ∅)
  = Some (Routes.by_user uid None).
Proof. destruct wb; reflexivity. Qed.

Lemma sort_created_desc (l : list Todo.t) :
  StronglySorted newer_first (Model.sort "createdAt" false l).
Proof.
  assert (Transitive newer_first) as Ht
    by (intros x y z; unfold newer_first; lia).
  apply Sorted_StronglySorted; [exact Ht|].
  assert (Sorted (sort_rel "createdAt" false) (Model.sort "createdAt" false l)) as Hs
    by apply Sorted_merge_sort, sort_rel_total.
  induction Hs as [|x r Hr IH Hhd]; constructor; [exact IH|].
  destruct Hhd as [|y r' Hxy]; constructor.
  unfold sort_rel, key_le in Hxy. simpl in Hxy.
  apply Is_true_true, Z.leb_le in Hxy. exact Hxy.
Qed.

(** X11. A list request without parameters returns the first page of ten:
    the ten most recently created tasks of the caller, newest first (all
    of them when there are at most ten), with [totalTodos] the number of
    the caller's tasks, page 1 and no previous page. *)
Theorem list_defaults wb engine uid (c : Collection) :
  ∃ items pg,
    Routes.get_todos wb engine uid ∅ c = mkReply 200 true (Some items) (Some pg) None
    ∧ items = take 10 (Model.sort "createdAt" false (owned uid c))
    ∧ length items = Nat.min 10 (length (owned uid c))
    ∧ StronglySorted newer_first items
    ∧ (∀ x, x ∈ items → x ∈ c ∧ Todo.user x = uid)
    ∧ (∀ x y, x ∈ items → y ∈ owned uid c → y ∉ items → newer_first x y)
    ∧ totalTodos pg = length (owned uid c)
    ∧ current pg = 1%Z ∧ hasPrev pg = false.
Proof.
  pose proof (get_todos_reply wb engine uid ∅ c _ eq_refl
                (build_filter_plain_empty wb engine uid)) as H.
  cbv zeta in H. rewrite find_by_user_all in H.
  change (Js.parseInt_or (∅ !! "page") 1) with 1%Z in H.
  change (Js.parseInt_or (∅ !! "limit") 10) with 10%Z in H.
  change (Z.to_nat ((1 - 1) * 10)) with 0 in H. rewrite drop_0 in H.
  change (default "createdAt" (Routes.given (∅ !! "sortBy"))) with "createdAt" in H.
  change (bool_decide (∅ !! "sortOrder" = Some "asc")) with false in H.
  set (sorted := Model.sort "createdAt" false (owned uid c)) in *.
  assert (sorted ≡ₚ owned uid c) as Hperm by apply merge_sort_Permutation.
  pose proof (sort_created_desc (owned uid c)) as Hs. fold sorted in Hs.
  eexists _, _. split; [exact H|]. split; [reflexivity|].
  split; [rewrite length_take, (Permutation_length Hperm); reflexivity|].
  rewrite <- (take_drop 10 sorted) in Hs.
  split; [by apply StronglySorted_app_1_l in Hs|]. split; [|split].
  - intros x Hx. apply subseteq_take in Hx. rewrite Hperm in Hx.
    apply list_elem_of_filter in Hx as [? ?]. done.
  - intros x y Hx Hy Hny.
    apply (StronglySorted_app_1_elem_of _ _ _ x y Hs Hx).
    rewrite <- Hperm, <- (take_drop 10 sorted) in Hy.
    apply elem_of_app in Hy as [Hy|Hy]; [contradiction | exact Hy].
  - simpl. done.
Qed.

Lemma ceil_div_lt (total page limit : Z) :
  (1 ≤ limit)%Z →
  (page < Routes.ceil_div total limit ↔ page * limit < total)%Z.
Proof.
  intros Hl. unfold Routes.ceil_div.
  pose proof (Z.div_mod (- total) limit ltac:(lia)) as Hd.
  pose proof (Z.mod_pos_bound (- total) limit ltac:(lia)) as Hm.
  split; intros H; nia.
Qed.

(** X12. The page and its metadata agree. For a valid request, with
    total the number of matching tasks: the page holds
    min(limit, total - (page - 1) * limit) items; [hasNext] says exactly
    that tasks remain after this page, and then the page is full;
    [hasPrev] says exactly that the page is not the first; and
    [total] (the page count) is the least number of pages that hold all
    matching tasks. *)
Theorem list_page_metadata wb engine uid (q : Routes.Query) (c : Collection) f :
  Routes.validate_list q = true →
  Routes.build_filter engine uid (Routes.sanitize_list wb q) = Some f →
  let page := Js.parseInt_or (q !! "page") 1 in
  let limit := Js.parseInt_or (q !! "limit") 10 in
  let total := length (Model.find f c) in
  ∃ items pg,
    Routes.get_todos wb engine uid q c = mkReply 200 true (Some items) (Some pg) None
    ∧ totalTodos pg = total ∧ current pg = page
    ∧ length items = Nat.min (Z.to_nat limit) (total - Z.to_nat ((page - 1) * limit))
    ∧ (hasNext pg = true ↔ (page * limit < Z.of_nat total)%Z)
    ∧ (hasNext pg = true → length items = Z.to_nat limit)
    ∧ (hasPrev pg = true ↔ (1 < page)%Z)
    ∧ ((totalPages pg - 1) * limit < Z.of_nat total ≤ totalPages pg * limit)%Z
    ∧ ((totalPages pg < page)%Z → items = []).
Proof.
  intros Hv Hf page limit total.
  pose proof (get_todos_reply wb engine uid q c f Hv Hf) as H. cbv zeta in H.
  fold page limit total in H.
  destruct (validated_page_limit q Hv) as [Hp Hl]. fold page limit in Hp, Hl.
  set (sorted := Model.sort _ _ _) in H.
  assert (length sorted = total) as Hlen
    by (apply Permutation_length, merge_sort_Permutation).
  assert (length (take (Z.to_nat limit) (drop (Z.to_nat ((page - 1) * limit)) sorted))
          = Nat.min (Z.to_nat limit) (total - Z.to_nat ((page - 1) * limit))) as Hit
    by (rewrite length_take, length_drop, Hlen; reflexivity).
  assert (∀ k, (k < Routes.ceil_div (Z.of_nat total) limit
                ↔ k * limit < Z.of_nat total)%Z) as Hc
    by (intros k; apply ceil_div_lt; lia).
  eexists _, _. split; [exact H|]. simpl.
  split; [reflexivity|]. split; [reflexivity|]. split; [exact Hit|].
  split; [rewrite Z.ltb_lt; apply Hc|].
  split; [rewrite Z.ltb_lt, Hc, Hit; nia|].
  split; [apply Z.ltb_lt|]. split.
  - pose proof (Hc (Routes.ceil_div (Z.of_nat total) limit - 1)%Z) as H1.
    pose proof (Hc (Routes.ceil_div (Z.of_nat total) limit)) as H2. lia.
  - intros Hlt. apply length_zero_iff_nil. rewrite Hit.
    pose proof (Hc (page - 1)%Z) as H1. nia.
Qed.

Lemma list_page_metadata_witness :
  ∃ items pg,
    Routes.get_todos false fragment_only alice page_two_of_two sample_tasks
    = mkReply 200 true (Some items) (Some pg) None
    ∧ totalTodos pg = 3 ∧ length items = 1
    ∧ hasNext pg = false ∧ hasPrev pg = true ∧ totalPages pg = 2%Z.
Proof.
  destruct (list_page_metadata false fragment_only alice page_two_of_two sample_tasks
              (Routes.by_user alice None) eq_refl eq_refl)
    as (items & pg & Hr & Ht & _ & Hi & _).
  exists items, pg. split; [exact Hr|]. split; [exact Ht|]. split; [exact Hi|].
  vm_compute in Hr. injection Hr as _ <-. done.
Defined.

(** X13. Out-of-range paging parameters are rejected, not clamped: a
    [limit] that denotes a number outside 1..100, or a [page] below 1,
    gets reply 400 without data. *)
Theorem list_rejects_bad_paging wb engine uid (q : Routes.Query) (c : Collection) s n :
  Js.int_of_string s = Some n →
  (q !! "limit" = Some s ∧ (n < 1 ∨ 100 < n)%Z)
  ∨ (q !! "page" = Some s ∧ (n < 1)%Z) →
  Routes.get_todos wb engine uid q c = reply_error 400.
Proof.
  intros Hn H. unfold Routes.get_todos.
  assert (Routes.validate_list q = false) as ->; [|reflexivity].
  unfold Routes.validate_list.
  destruct H as [[Hq Hr] | [Hq Hr]]; rewrite Hq; simpl;
    unfold Routes.isInt; rewrite Hn; simpl.
  - destruct (opt_test (q !! "page") _); simpl; [|reflexivity].
    destruct (Z.leb_spec 1 n), (Z.leb_spec n 100); simpl; try reflexivity; lia.
  - destruct (Z.leb_spec 1 n); [lia | reflexivity].
Qed.

Lemma list_rejects_bad_paging_witness :
  Routes.get_todos true fragment_only alice oversized_query sample_tasks
  = reply_error 400.
Proof.
  apply (list_rejects_bad_paging true fragment_only alice oversized_query
           sample_tasks "500" 500);
    [reflexivity|]. left. split; [reflexivity | lia].
Defined.




(** X15. A search the handler reads as the empty string is no filter:
    the reply is the one the same request without [search] gets. That is
    the case of an empty search string always, and of a search string of
    blanks when the trimmed string reaches the handler. When it does not,
    a search string of blanks is a pattern like any other. *)
Theorem list_blank_search_is_no_filter (wb : bool) engine uid (q : Routes.Query)
    (c : Collection) s :
  (if wb then Js.trim s else s) = EmptyString →
  Routes.get_todos wb engine uid (<["search" := s]> q) c
  = Routes.get_todos wb engine uid (delete "search" q) c.
Proof.
  intros Hs.
  assert (Js.trim s = EmptyString) as Ht
    by (destruct wb; [exact Hs | rewrite Hs; reflexivity]).
  unfold Routes.get_todos.
  assert (Routes.validate_list (<["search" := s]> q)
          = Routes.validate_list (delete "search" q)) as ->.
  { unfold Routes.validate_list.
    rewrite lookup_insert_eq, lookup_delete_eq.
    rewrite !lookup_insert_ne, !lookup_delete_ne by done.
    simpl. rewrite Ht. reflexivity. }
  destruct (Routes.validate_list (delete "search" q)); [|reflexivity]. simpl.
  rewrite !sanitize_list_other by done.
  rewrite !lookup_insert_ne, !lookup_delete_ne by done.
  assert (Routes.build_filter engine uid (Routes.sanitize_list wb (<["search" := s]> q))
          = Routes.build_filter engine uid (Routes.sanitize_list wb (delete "search" q)))
    as ->; [|reflexivity].
  unfold Routes.build_filter.
  rewrite !sanitize_list_search, !sanitize_list_other by done.
  rewrite lookup_insert_eq, lookup_delete_eq, !lookup_insert_ne,
          !lookup_delete_ne by done.
  destruct wb; simpl; rewrite Hs; reflexivity.
Qed.

Lemma list_blank_search_is_no_filter_witness :
  Routes.get_todos true fragment_only alice blank_search_query sample_tasks
  = Routes.get_todos true fragment_only alice {[ "completed" := "false" ]} sample_tasks
  ∧ data (Routes.get_todos false fragment_only alice blank_search_query sample_tasks)
    = Some [].
Proof.
  split; [|vm_compute; reflexivity].
  etrans; [|etrans;
    [exact (list_blank_search_is_no_filter true fragment_only alice
              {[ "completed" := "false" ]} sample_tasks "  " eq_refl)|]];
    vm_compute; reflexivity.
Defined.

(** * Further properties of the clients *)

(** ** Sorting *)

Lemma insert_by_perm {A} (cmp : A → A → Z) x (l : list A) :
  Js.insert_by cmp x l ≡ₚ x :: l.
Proof.
  induction l as [|y r IH]; simpl; [reflexivity|].
  destruct (cmp x y <=? 0)%Z; [reflexivity|].
  rewrite IH. apply Permutation_swap.
Qed.

Lemma sort_perm {A} (cmp : A → A → Z) (l : list A) : Js.sort cmp l ≡ₚ l.
Proof.
  unfold Js.sort. induction l as [|x r IH]; simpl; [reflexivity|].
  rewrite insert_by_perm, IH. reflexivity.
Qed.

Lemma insert_by_sorted {A} (cmp : A → A → Z) x (l : list A) :
  consistent cmp →
  StronglySorted (before cmp) l → StronglySorted (before cmp) (Js.insert_by cmp x l).
Proof.
  intros [Htot Htr] Hs. induction Hs as [|y r Hr IH Hy]; simpl.
  - repeat constructor.
  - destruct (Z.leb_spec (cmp x y) 0) as [Hle|Hgt].
    + constructor; [by constructor|]. constructor; [exact Hle|].
      eapply Forall_impl; [exact Hy|]. intros z Hz. by apply (Htr x y z).
    + constructor; [exact IH|].
      rewrite (insert_by_perm cmp x r). constructor; [|exact Hy].
      destruct (Htot x y) as [H|H]; [unfold before in H; lia | exact H].
Qed.

(** Sorting with a consistent comparator orders the list. *)
Lemma sort_sorted {A} (cmp : A → A → Z) (l : list A) :
  consistent cmp → StronglySorted (before cmp) (Js.sort cmp l).
Proof.
  intros Hc. unfold Js.sort. induction l as [|x r IH]; simpl; [constructor|].
  by apply insert_by_sorted.
Qed.

Lemma StronglySorted_lookup {A} (R : relation A) (l : list A) i j a b :
  StronglySorted R l → i < j → l !! i = Some a → l !! j = Some b → R a b.
Proof.
  intros Hs. revert i j. induction Hs as [|x r Hr IH Hx]; intros i j Hij Ha Hb.
  - by rewrite lookup_nil in Ha.
  - destruct j as [|j]; [lia|]. simpl in Hb. destruct i as [|i]; simpl in Ha.
    + injection Ha as <-. rewrite Forall_forall in Hx. apply Hx.
      by eapply list_elem_of_lookup_2.
    + apply (IH i j); [lia | done..].
Qed.

Lemma compare_consistent now sortBy : consistent (App.compare now sortBy).
Proof.
  unfold consistent, before, App.compare.
  destruct (String.eqb sortBy "deadline"); [|destruct (String.eqb sortBy "priority")].
  - split.
    + intros a b. destruct (App.deadline a), (App.deadline b); lia.
    + intros a b c.
      destruct (App.deadline a), (App.deadline b), (App.deadline c); lia.
  - split; intros; lia.
  - split; intros; lia.
Qed.

(** X16. The sorted view of the offline client is a rearrangement of the
    tasks, ordered by the chosen key: whenever [a] is shown above [b],
    then under [deadline] a task without deadline is never above one with
    a deadline, two deadlines are in ascending order and two tasks without
    deadline newest first; under [priority] the urgency rank (overdue,
    today, soon, normal, none) of [a] is at most that of [b]; under any
    other key [a] was created no earlier than [b]. *)
Theorem sortedTodos_ordered now (s : App.state) i j a b :
  i < j →
  App.sortedTodos now s !! i = Some a → App.sortedTodos now s !! j = Some b →
  App.sortedTodos now s ≡ₚ App.todos s
  ∧ (App.sortBy s = "deadline" →
       match App.deadline a, App.deadline b with
       | Some da, Some db => (da ≤ db)%Z
       | Some _, None => True
       | None, Some _ => False
       | None, None => (App.createdAt b ≤ App.createdAt a)%Z
       end)
  ∧ (App.sortBy s = "priority" →
       (App.priority (App.getDeadlineStatus now (App.deadline a) (App.completed a))
        ≤ App.priority (App.getDeadlineStatus now (App.deadline b) (App.completed b)))%Z)
  ∧ (App.sortBy s ≠ "deadline" → App.sortBy s ≠ "priority" →
       (App.createdAt b ≤ App.createdAt a)%Z).
Proof.
  intros Hij Ha Hb. split; [apply sort_perm|].
  pose proof (sort_sorted (App.compare now (App.sortBy s)) (App.todos s)
                (compare_consistent now (App.sortBy s))) as Hs.
  pose proof (StronglySorted_lookup _ _ i j a b Hs Hij Ha Hb) as Hab.
  unfold before, App.compare in Hab. split; [|split].
  - intros He. rewrite He in Hab. simpl in Hab.
    destruct (App.deadline a), (App.deadline b); lia.
  - intros He. rewrite He in Hab. simpl in Hab. lia.
  - intros H1 H2.
    destruct (String.eqb_spec (App.sortBy s) "deadline"); [done|].
    destruct (String.eqb_spec (App.sortBy s) "priority"); [done|]. lia.
Qed.

Lemma sortedTodos_ordered_witness :
  App.sortedTodos an_instant offline_client = [offline_late; offline_plain; offline_done]
  ∧ (App.priority (App.getDeadlineStatus an_instant (App.deadline offline_late)
                     (App.completed offline_late))
     ≤ App.priority (App.getDeadlineStatus an_instant (App.deadline offline_plain)
                       (App.completed offline_plain)))%Z.
Proof.
  split; [reflexivity|].
  destruct (sortedTodos_ordered an_instant offline_client 0 1
              offline_late offline_plain) as (_ & _ & H & _);
    [lia | reflexivity | reflexivity |].
  apply H. reflexivity.
Defined.

(** ** Counters and filtered views *)

Lemma overdue_client_iff now deadline completed :
  App.isOverdue now deadline && negb completed = true
  ↔ App.getDeadlineStatus now deadline completed = overdue.
Proof.
  rewrite <- classifier_overdue_iff. unfold App.isOverdue.
  destruct deadline as [d|], completed; simpl;
    rewrite ?Bool.andb_false_r, ?Bool.andb_true_r, ?Z.ltb_lt.
  - split; [done | intros [_ ?]; done].
  - split; [intros; split; [eauto | done] | intros [[d' [[= <-] ?]] _]; done].
  - split; [done | intros [_ ?]; done].
  - split; [done | intros [[d' [? _]] _]; done].
Qed.

Lemma length_filter_perm {A} (P : A → Prop) `{∀ x, Decision (P x)} (l l' : list A) :
  l ≡ₚ l' → length (filter P l) = length (filter P l').
Proof. intros H'. apply Permutation_length. by rewrite H'. Qed.

Lemma filteredTodos_view now (s : App.state) view :
  App.filteredTodos now (App.setFilter view s)
  = filter (λ t, App.filter_pred now view t) (App.sortedTodos now s).
Proof. reflexivity. Qed.

(** X17. The counters of the offline client match its views. Completed
    and active tasks add up to all tasks, and the overdue ones are among
    the active; the overdue counter counts exactly the tasks the
    classifier calls overdue; the views [active], [completed] and
    [overdue] show as many tasks as the respective counter says, any other
    view shows every task, and every task of the overdue view is also in
    the active view. *)
Theorem counters_match_views now (s : App.state) :
  App.completedCount s + App.activeCount s = length (App.todos s)
  ∧ (App.overdueCount now s ≤ App.activeCount s)%nat
  ∧ App.overdueCount now s
    = length (filter (λ t, App.getDeadlineStatus now (App.deadline t) (App.completed t)
                           = overdue) (App.todos s))
  ∧ length (App.filteredTodos now (App.setFilter "active" s)) = App.activeCount s
  ∧ length (App.filteredTodos now (App.setFilter "completed" s)) = App.completedCount s
  ∧ length (App.filteredTodos now (App.setFilter "overdue" s)) = App.overdueCount now s
  ∧ (∀ view, view ≠ "active" → view ≠ "completed" → view ≠ "overdue" →
       App.filteredTodos now (App.setFilter view s) = App.sortedTodos now s)
  ∧ (∀ t, t ∈ App.filteredTodos now (App.setFilter "overdue" s) →
          t ∈ App.filteredTodos now (App.setFilter "active" s)).
Proof.
  unfold App.completedCount, App.activeCount, App.overdueCount.
  rewrite !filteredTodos_view.
  pose proof (sort_perm (App.compare now (App.sortBy s)) (App.todos s)) as Hp.
  fold (App.sortedTodos now s) in Hp.
  split_and!.
  - clear Hp. induction (App.todos s) as [|t l IH]; [reflexivity|].
    rewrite !filter_cons. destruct (App.completed t); simpl in *; lia.
  - clear Hp. induction (App.todos s) as [|t l IH]; [reflexivity|].
    rewrite !filter_cons.
    destruct (App.isOverdue now (App.deadline t)), (App.completed t); simpl in *; lia.
  - f_equal. apply list_filter_iff. intros t.
    rewrite Is_true_true.
    destruct (overdue_client_iff now (App.deadline t) (App.completed t)) as [H1 H2].
    split; [exact H1 | exact H2].
  - by apply length_filter_perm.
  - by apply length_filter_perm.
  - by apply length_filter_perm.
  - intros view H1 H2 H3. rewrite filteredTodos_view. clear Hp.
    unfold App.filter_pred.
    destruct (String.eqb_spec view "active"); [done|].
    destruct (String.eqb_spec view "completed"); [done|].
    destruct (String.eqb_spec view "overdue"); [done|].
    induction (App.sortedTodos now s) as [|t l IH]; [reflexivity|].
    rewrite filter_cons. simpl. f_equal. exact IH.
  - intros t. rewrite !list_elem_of_filter. unfold App.filter_pred. simpl.
    intros [H Ht]. split; [|exact Ht]. by apply andb_True in H as [_ H].
Qed.

Lemma counters_match_views_witness :
  App.completedCount offline_client + App.activeCount offline_client = 3
  ∧ App.filteredTodos an_instant (App.setFilter "done" offline_client)
    = App.sortedTodos an_instant offline_client
  ∧ offline_late ∈ App.filteredTodos an_instant (App.setFilter "active" offline_client).
Proof.
  destruct (counters_match_views an_instant offline_client)
    as (H1 & _ & _ & _ & _ & _ & H7 & H8).
  split; [exact H1|]. split; [apply H7; discriminate | apply H8; compute_done].
Defined.

(** ** Task operations of the offline client *)

Lemma toggle_twice (t : App.todo) :
  {| App.id := App.id t; App.text := App.text t;
     App.completed := negb (negb (App.completed t));
     App.deadline := App.deadline t; App.createdAt := App.createdAt t |} = t.
Proof. destruct t. simpl. by rewrite Bool.negb_involutive. Qed.

(** X18. Toggling is an involution that touches one identifier: toggling
    the same task twice restores the state; a single toggle flips
    [completed] of the tasks with that identifier and leaves every other
    task, the order, and all other fields as they were; it moves one task
    between the completed and the active counter. *)
Theorem toggleTodo_flips_one i (s : App.state) :
  App.toggleTodo i (App.toggleTodo i s) = s
  ∧ App.id <$> App.todos (App.toggleTodo i s) = App.id <$> App.todos s
  ∧ App.text <$> App.todos (App.toggleTodo i s) = App.text <$> App.todos s
  ∧ App.deadline <$> App.todos (App.toggleTodo i s) = App.deadline <$> App.todos s
  ∧ (∀ k t, App.todos s !! k = Some t →
       ∃ t', App.todos (App.toggleTodo i s) !! k = Some t'
             ∧ App.completed t'
               = (if bool_decide (App.id t = i) then negb (App.completed t)
                  else App.completed t))
  ∧ (∀ t, t ∈ App.todos s → App.id t ≠ i → t ∈ App.todos (App.toggleTodo i s))
  ∧ App.completedCount (App.toggleTodo i s) + App.activeCount (App.toggleTodo i s)
    = length (App.todos s).
Proof.
  split_and!.
  - destruct s as [l ? ? ? ? ? ? ? ? ?]. unfold App.toggleTodo, App.set_todos.
    simpl. f_equal. rewrite <- list_fmap_compose.
    etrans; [|apply list_fmap_id]. apply list_fmap_ext. intros _ t _. simpl.
    destruct (bool_decide_reflect (App.id t = i)) as [He|Hne]; simpl.
    + rewrite bool_decide_eq_true_2 by exact He. apply toggle_twice.
    + rewrite bool_decide_eq_false_2 by exact Hne. reflexivity.
  - unfold App.toggleTodo. simpl. rewrite <- list_fmap_compose.
    apply list_fmap_ext. intros _ t _. simpl. by destruct (bool_decide _).
  - unfold App.toggleTodo. simpl. rewrite <- list_fmap_compose.
    apply list_fmap_ext. intros _ t _. simpl. by destruct (bool_decide _).
  - unfold App.toggleTodo. simpl. rewrite <- list_fmap_compose.
    apply list_fmap_ext. intros _ t _. simpl. by destruct (bool_decide _).
  - intros k t Hk. unfold App.toggleTodo. simpl.
    rewrite list_lookup_fmap, Hk. simpl. eexists. split; [reflexivity|].
    by destruct (bool_decide _).
  - intros t Ht Hne. unfold App.toggleTodo. simpl.
    apply list_elem_of_fmap. exists t. split; [|exact Ht].
    by rewrite bool_decide_eq_false_2.
  - unfold App.completedCount, App.activeCount, App.toggleTodo. simpl.
    induction (App.todos s) as [|t l IH]; [reflexivity|].
    rewrite fmap_cons, !filter_cons.
    destruct (bool_decide _), (App.completed t); simpl in *; lia.
Qed.

Lemma toggleTodo_flips_one_witness :
  App.todos (App.toggleTodo 22 offline_client)
  = [offline_plain;
     offline_done;
     App.mkTodo 22 "File taxes" true (Some (an_instant - a_day)%Z)
       (an_instant - 3 * a_day)%Z]
  ∧ offline_plain ∈ App.todos (App.toggleTodo 22 offline_client).
Proof.
  split; [reflexivity|].
  apply (toggleTodo_flips_one 22 offline_client); [compute_done | discriminate].
Defined.

(** X19. Adding a task to the offline client. A blank text adds nothing
    and keeps the form. Otherwise, unless the date of the form is invalid,
    the new task is put first: not completed, with the trimmed text, the
    identifier and creation time of the moment; its deadline is absent
    when no date was entered, the entered date at the entered time, or at
    23:59 when no time was entered. The form is cleared and the tasks that
    were there follow unchanged. *)
Theorem addTodo_prepends parse stamp created (s : App.state) :
  (Js.trim (App.newTodo s) = EmptyString → App.addTodo parse stamp created s = s)
  ∧ (Js.trim (App.newTodo s) ≠ EmptyString →
     ∀ d, App.compose_deadline parse (App.newDeadline s) (App.newTime s) = Some d →
       App.todos (App.addTodo parse stamp created s)
       = App.mkTodo stamp (Js.trim (App.newTodo s)) false d created :: App.todos s
       ∧ App.newTodo (App.addTodo parse stamp created s) = EmptyString
       ∧ App.newDeadline (App.addTodo parse stamp created s) = EmptyString
       ∧ App.newTime (App.addTodo parse stamp created s) = EmptyString
       ∧ (App.newDeadline s = EmptyString → d = None)
       ∧ (App.newDeadline s ≠ EmptyString → App.newTime s = EmptyString →
          d = parse (App.newDeadline s +:+ "T23:59"))
       ∧ (App.newDeadline s ≠ EmptyString → App.newTime s ≠ EmptyString →
          d = parse (App.newDeadline s +:+ "T" +:+ App.newTime s))).
Proof.
  unfold App.addTodo. split.
  - intros ->. reflexivity.
  - intros Hne d Hd. apply nonempty_true in Hne. rewrite Hne, Hd. simpl.
    do 4 (split; [reflexivity|]).
    unfold App.compose_deadline in Hd.
    destruct (Js.nonempty (App.newDeadline s)) eqn:End.
    + apply nonempty_true in End.
      destruct (Js.nonempty (App.newTime s)) eqn:Ent.
      * apply nonempty_true in Ent.
        destruct (parse _) as [z|] eqn:Ep; [|discriminate]. injection Hd as <-.
        split_and!; done.
      * assert (App.newTime s = EmptyString) as Et
          by (destruct (App.newTime s); [done | discriminate]).
        destruct (parse _) as [z|] eqn:Ep; [|discriminate]. injection Hd as <-.
        split_and!; done.
    + assert (App.newDeadline s = EmptyString) as Ed
        by (destruct (App.newDeadline s); [done | discriminate]).
      injection Hd as <-. split_and!; done.
Qed.

Lemma addTodo_prepends_witness :
  App.todos (App.addTodo no_dates 25 an_instant offline_client)
  = App.mkTodo 25 "Water plants" false None an_instant :: App.todos offline_client
  ∧ App.addTodo no_dates 25 an_instant offline_client_nbsp = offline_client_nbsp.
Proof.
  destruct (addTodo_prepends no_dates 25 an_instant offline_client) as [_ H].
  destruct (H ltac:(discriminate) None eq_refl) as (H1 & _).
  split; [exact H1|].
  destruct (addTodo_prepends no_dates 25 an_instant offline_client_nbsp) as [H0 _].
  apply H0. reflexivity.
Defined.

(** X20. Deleting removes every task with the identifier and nothing
    else, in place; deleting again changes nothing; and deleting a task
    right after adding it under an identifier no other task carries gives
    back the list as it was. *)
Theorem deleteTodo_removes_identifier parse i stamp created (s : App.state) :
  (∀ t, t ∈ App.todos (App.deleteTodo i s) ↔ t ∈ App.todos s ∧ App.id t ≠ i)
  ∧ App.todos (App.deleteTodo i s) `sublist_of` App.todos s
  ∧ App.deleteTodo i (App.deleteTodo i s) = App.deleteTodo i s
  ∧ (stamp ∉ App.id <$> App.todos s →
     App.todos (App.deleteTodo stamp (App.addTodo parse stamp created s))
     = App.todos s).
Proof.
  split_and!.
  - intros t. unfold App.deleteTodo. simpl. rewrite list_elem_of_filter. tauto.
  - apply sublist_filter.
  - unfold App.deleteTodo, App.set_todos. simpl. f_equal.
    rewrite list_filter_filter. apply list_filter_iff. tauto.
  - intros Hfresh.
    assert (filter (λ t, App.id t ≠ stamp) (App.todos s) = App.todos s) as Hsame.
    { induction (App.todos s) as [|t l IH]; [reflexivity|].
      rewrite fmap_cons, not_elem_of_cons in Hfresh. destruct Hfresh as [Hne Hl].
      rewrite filter_cons, decide_True by congruence. f_equal. by apply IH. }
    unfold App.addTodo.
    destruct (Js.nonempty _); [|exact Hsame].
    destruct (App.compose_deadline _ _ _); [|exact Hsame].
    unfold App.deleteTodo. simpl.
    rewrite filter_cons, decide_False by (simpl; intros H; by apply H).
    exact Hsame.
Qed.

Lemma deleteTodo_removes_identifier_witness :
  App.todos (App.deleteTodo 25 (App.addTodo no_dates 25 an_instant offline_client))
  = App.todos offline_client
  ∧ offline_late ∈ App.todos (App.deleteTodo 23 offline_client).
Proof.
  destruct (deleteTodo_removes_identifier no_dates 23 25 an_instant offline_client)
    as (H1 & _ & _ & H4).
  split; [apply H4; compute_done | apply H1; split; [compute_done | discriminate]].
Defined.

(** X21. Saving an edit with a text that is not blank, in the offline
    client: the session ends; the tasks keep their number, order,
    identifiers, completion flags and creation times; the task being
    edited gets the trimmed text and the deadline of the form (none when
    the date field is empty, which clears an existing deadline) and every
    other task is unchanged. When the date of the form is invalid nothing
    happens at all: the session stays open. *)
Theorem saveEdit_commits parse (s : App.state) :
  Js.trim (App.editText s) ≠ EmptyString →
  (App.compose_deadline parse (App.editDeadline s) (App.editTime s) = None →
   App.saveEdit parse s = s)
  ∧ ∀ d, App.compose_deadline parse (App.editDeadline s) (App.editTime s) = Some d →
      let s' := App.saveEdit parse s in
      App.editingId s' = None ∧ App.editText s' = EmptyString
      ∧ App.id <$> App.todos s' = App.id <$> App.todos s
      ∧ App.completed <$> App.todos s' = App.completed <$> App.todos s
      ∧ App.createdAt <$> App.todos s' = App.createdAt <$> App.todos s
      ∧ (∀ k t, App.todos s !! k = Some t → Some (App.id t) ≠ App.editingId s →
           App.todos s' !! k = Some t)
      ∧ (∀ k t, App.todos s !! k = Some t → Some (App.id t) = App.editingId s →
           ∃ t', App.todos s' !! k = Some t'
                 ∧ App.text t' = Js.trim (App.editText s) ∧ App.deadline t' = d)
      ∧ (App.editDeadline s = EmptyString → d = None).
Proof.
  intros Hne. apply nonempty_true in Hne. unfold App.saveEdit. rewrite Hne.
  split; [intros ->; reflexivity|].
  intros d Hd. rewrite Hd. simpl. split_and!; try reflexivity.
  - rewrite <- list_fmap_compose. apply list_fmap_ext. intros _ t _. simpl.
    by destruct (bool_decide _).
  - rewrite <- list_fmap_compose. apply list_fmap_ext. intros _ t _. simpl.
    by destruct (bool_decide _).
  - rewrite <- list_fmap_compose. apply list_fmap_ext. intros _ t _. simpl.
    by destruct (bool_decide _).
  - intros k t Hk Hn. rewrite list_lookup_fmap, Hk. simpl.
    by rewrite bool_decide_eq_false_2.
  - intros k t Hk He. rewrite list_lookup_fmap, Hk. simpl.
    rewrite bool_decide_eq_true_2 by exact He. eexists. done.
  - intros He. unfold App.compose_deadline in Hd. rewrite He in Hd. simpl in Hd.
    congruence.
Qed.

Lemma saveEdit_commits_witness :
  App.todos (App.saveEdit no_dates offline_editing)
  = [offline_plain; offline_done;
     App.mkTodo 22 "Pay taxes" false None (an_instant - 3 * a_day)%Z]
  ∧ App.editingId (App.saveEdit no_dates offline_editing) = None
  ∧ App.todos (App.saveEdit no_dates offline_editing_nbsp)
    = App.todos (App.saveEdit no_dates offline_editing)
  ∧ App.editingId (App.saveEdit no_dates offline_editing_nbsp) = None.
Proof.
  destruct (saveEdit_commits no_dates offline_editing ltac:(discriminate))
    as [_ H].
  destruct (H None eq_refl) as (H1 & _). split; [reflexivity|].
  split; [exact H1|]. split; [reflexivity|].
  destruct (saveEdit_commits no_dates offline_editing_nbsp ltac:(discriminate))
    as [_ H'].
  destruct (H' None eq_refl) as (H1' & _). exact H1'.
Defined.

(** * The backend-integrated client *)

Lemma set_error_same msg (s : TodoApp.state) :
  same_but_error s (TodoApp.set_error msg s).
Proof. unfold same_but_error. simpl. split_and!; reflexivity. Qed.

Lemma same_but_error_refl (s : TodoApp.state) : same_but_error s s.
Proof. unfold same_but_error. split_and!; reflexivity. Qed.

(** X22. A request that fails changes nothing but the error message:
    after a failed toggle, delete, add or save the tasks, the form and the
    edit session are as before and an error is shown, so a failed save
    keeps the text being edited. A toggle of an identifier the client
    does not show fails in the same way, whatever the API would answer. *)
Theorem failed_request_changes_only_error parse api_post api_put api_toggle
    api_delete i (s : TodoApp.state) :
  ((∀ b, api_toggle i b = None) ∨ i ∉ Todo._id <$> TodoApp.todos s →
   same_but_error s (TodoApp.toggleTodo api_toggle i s)
   ∧ TodoApp.error (TodoApp.toggleTodo api_toggle i s) ≠ EmptyString)
  ∧ (api_delete i = false →
     same_but_error s (TodoApp.deleteTodo api_delete i s)
     ∧ TodoApp.error (TodoApp.deleteTodo api_delete i s) ≠ EmptyString)
  ∧ ((∀ d, api_post d = None) →
     same_but_error s (TodoApp.addTodo parse api_post s)
     ∧ (Js.trim (TodoApp.newTodo s) ≠ EmptyString →
        TodoApp.error (TodoApp.addTodo parse api_post s) ≠ EmptyString))
  ∧ ((∀ d, api_put (TodoApp.editingId s) d = None) →
     same_but_error s (TodoApp.saveEdit parse api_put s)
     ∧ (Js.trim (TodoApp.editText s) ≠ EmptyString →
        TodoApp.error (TodoApp.saveEdit parse api_put s) ≠ EmptyString)).
Proof.
  split_and!.
  - intros H. unfold TodoApp.toggleTodo.
    destruct (head _) as [t|] eqn:Eh.
    + destruct H as [H|H].
      * rewrite H. split; [apply set_error_same | discriminate].
      * destruct H. apply head_Some_elem_of, list_elem_of_filter in Eh as [He Ht].
        apply list_elem_of_fmap. exists t. done.
    + split; [apply set_error_same | discriminate].
  - intros H. unfold TodoApp.deleteTodo. rewrite H.
    split; [apply set_error_same | discriminate].
  - intros H. unfold TodoApp.addTodo.
    destruct (Js.nonempty _) eqn:En.
    + destruct (TodoApp.compose_deadline _ _ _); [rewrite H|];
        (split; [apply set_error_same | discriminate]).
    + split; [apply same_but_error_refl|]. intros Hne.
      apply nonempty_true in Hne. congruence.
  - intros H. unfold TodoApp.saveEdit.
    destruct (Js.nonempty _) eqn:En.
    + destruct (TodoApp.compose_deadline _ _ _); [rewrite H|];
        (split; [apply set_error_same | discriminate]).
    + split; [apply same_but_error_refl|]. intros Hne.
      apply nonempty_true in Hne. congruence.
Qed.

Lemma failed_request_changes_only_error_witness :
  TodoApp.editText (TodoApp.saveEdit no_dates (λ _ _, None) online_client)
  = "Buy oat milk"
  ∧ TodoApp.editingId (TodoApp.saveEdit no_dates (λ _ _, None) online_client)
    = Some 11
  ∧ TodoApp.error (TodoApp.toggleTodo (λ _ _, Some task_C) 99 online_client)
    ≠ EmptyString
  ∧ TodoApp.error (TodoApp.addTodo no_dates (λ _, None) online_client)
    ≠ EmptyString
  ∧ TodoApp.addTodo no_dates (λ _, None) online_client_nbsp = online_client_nbsp.
Proof.
  destruct (failed_request_changes_only_error no_dates (λ _, None) (λ _ _, None)
              (λ _ _, Some task_C) (λ _, false) 99 online_client)
    as (H1 & _ & H3 & H4).
  destruct H4 as [(_ & _ & _ & _ & _ & Hid & Htx & _) _]; [done|].
  split; [exact Htx|]. split; [exact Hid|].
  split; [apply H1; right; compute_done|].
  split; [|reflexivity].
  destruct H3 as [_ H3]; [done|]. apply H3. discriminate.
Defined.

(** ** The client against the handlers *)

Lemma put_completed_reply dp uid now b (c : Collection) x :
  unique_ids c → x ∈ c → Todo.user x = uid →
  Routes.put_todo dp (Some (Todo._id x)) uid now (completed_body b) c
  = (mkReply 200 true (Some (with_completed b now x)) None None,
     (λ y, if decide (y = x) then with_completed b now x else y) <$> c).
Proof.
  intros Hu Hx Hw. unfold Routes.put_todo.
  assert (Routes.validate_update dp (completed_body b) = true) as ->
    by (destruct b; reflexivity).
  simpl. rewrite <- Hw, (findOne_unique c x Hu Hx).
  assert (Routes.assign dp (Routes.sanitize_update (completed_body b)) x
          = Some {| Todo._id := Todo._id x; Todo.user := Todo.user x;
                    Todo.text := Todo.text x; Todo.completed := b;
                    Todo.deadline := Todo.deadline x;
                    Todo.priority := Todo.priority x;
                    Todo.category := Todo.category x;
                    Todo.createdAt := Todo.createdAt x;
                    Todo.updatedAt := Todo.updatedAt x |}) as ->
    by (destruct b; reflexivity).
  assert (∀ u, Todo.text u = Todo.text x → Todo.priority u = Todo.priority x →
               Todo.category u = Todo.category x → Model.validate x u = true)
    as Hvalid.
  { intros u E1 E2 E3. unfold Model.validate.
    rewrite E1, E2, E3, !String.eqb_refl, bool_decide_eq_true_2 by done.
    reflexivity. }
  rewrite Hvalid by reflexivity.
  fold (with_completed b now x). f_equal.
  apply save_unique; [exact Hu | exact Hx|].
  unfold with_completed. by destruct (stamp_fields now x
    {| Todo._id := Todo._id x; Todo.user := Todo.user x;
       Todo.text := Todo.text x; Todo.completed := b;
       Todo.deadline := Todo.deadline x; Todo.priority := Todo.priority x;
       Todo.category := Todo.category x; Todo.createdAt := Todo.createdAt x;
       Todo.updatedAt := Todo.updatedAt x |}) as (-> & _).
Qed.

Lemma with_completed_fields b now x :
  Todo._id (with_completed b now x) = Todo._id x
  ∧ Todo.user (with_completed b now x) = Todo.user x
  ∧ Todo.text (with_completed b now x) = Todo.text x
  ∧ Todo.completed (with_completed b now x) = b
  ∧ Todo.deadline (with_completed b now x) = Todo.deadline x.
Proof.
  unfold with_completed.
  destruct (stamp_fields now x
    {| Todo._id := Todo._id x; Todo.user := Todo.user x;
       Todo.text := Todo.text x; Todo.completed := b;
       Todo.deadline := Todo.deadline x; Todo.priority := Todo.priority x;
       Todo.category := Todo.category x; Todo.createdAt := Todo.createdAt x;
       Todo.updatedAt := Todo.updatedAt x |})
    as (-> & -> & -> & -> & -> & _). done.
Qed.

(** X23. A toggle of the backend-integrated client against the update
    handler. When the client shows stored tasks of the user, a toggle of
    one of them succeeds: the stored task and the shown task both get the
    opposite [completed] and keep text and deadline, every other shown
    task stays, no error is set, and afterwards the client still shows
    stored tasks of the user only. *)
Theorem toggle_against_server dp uid now (c : Collection) (s : TodoApp.state) x :
  unique_ids c → shows uid c s → x ∈ TodoApp.todos s →
  let s' := TodoApp.toggleTodo (server_put_completed dp uid now c) (Todo._id x) s in
  let c' := (Routes.put_todo dp (Some (Todo._id x)) uid now
               (completed_body (negb (Todo.completed x))) c).2 in
  shows uid c' s' ∧ unique_ids c'
  ∧ TodoApp.error s' = EmptyString
  ∧ length (TodoApp.todos s') = length (TodoApp.todos s)
  ∧ (∀ t, t ∈ TodoApp.todos s' → Todo._id t = Todo._id x →
          Todo.completed t = negb (Todo.completed x)
          ∧ Todo.text t = Todo.text x ∧ Todo.deadline t = Todo.deadline x)
  ∧ (∀ t, t ∈ TodoApp.todos s → Todo._id t ≠ Todo._id x → t ∈ TodoApp.todos s').
Proof.
  intros Hu Hs Hx s' c'.
  destruct (Hs x Hx) as [Hxc Hxu].
  set (b := negb (Todo.completed x)) in *.
  set (x' := with_completed b now x).
  destruct (with_completed_fields b now x) as (Fi & Fu & Ft & Fc & Fd).
  fold x' in Fi, Fu, Ft, Fc, Fd.
  assert (c' = (λ y, if decide (y = x) then x' else y) <$> c) as Hc'
    by (unfold c'; rewrite (put_completed_reply dp uid now b c x); done).
  assert (head (filter (λ t, Todo._id t = Todo._id x) (TodoApp.todos s)) = Some x)
    as Hhead.
  { destruct (head _) as [t|] eqn:Eh.
    - apply head_Some_elem_of, list_elem_of_filter in Eh as [He Ht].
      f_equal. apply (unique_ids_inj c); [done | by apply Hs | done..].
    - apply head_None in Eh.
      assert (x ∈ filter (λ t, Todo._id t = Todo._id x) (TodoApp.todos s)) as Hin
        by (apply list_elem_of_filter; done).
      rewrite Eh in Hin. by apply elem_of_nil in Hin. }
  assert (TodoApp.todos s'
          = (λ t, if bool_decide (Todo._id t = Todo._id x) then x' else t)
              <$> TodoApp.todos s ∧ TodoApp.error s' = EmptyString) as [Ht' He'].
  { unfold s', TodoApp.toggleTodo. rewrite Hhead. fold b.
    unfold server_put_completed.
    rewrite (put_completed_reply dp uid now b c x) by done. simpl. done. }
  split_and!.
  - intros t Ht. rewrite Ht' in Ht. apply list_elem_of_fmap in Ht as (t0 & -> & Ht0).
    rewrite Hc'. destruct (bool_decide_reflect (Todo._id t0 = Todo._id x)) as [E|E].
    + split; [|congruence]. apply list_elem_of_fmap. exists x.
      by rewrite decide_True.
    + destruct (Hs t0 Ht0) as [Hc0 Hu0]. split; [|exact Hu0].
      apply list_elem_of_fmap. exists t0. rewrite decide_False; [done|].
      intros ->. done.
  - unfold unique_ids. rewrite Hc', fmap_replace_same; done.
  - exact He'.
  - rewrite Ht'. apply length_fmap.
  - intros t Ht Hi. rewrite Ht' in Ht.
    apply list_elem_of_fmap in Ht as (t0 & -> & Ht0).
    destruct (bool_decide_reflect (Todo._id t0 = Todo._id x)) as [E|E].
    + rewrite Fc, Ft, Fd. done.
    + destruct (E Hi).
  - intros t Ht Hne. rewrite Ht'. apply list_elem_of_fmap. exists t.
    by rewrite bool_decide_eq_false_2.
Qed.

Lemma toggle_against_server_witness :
  let s' := TodoApp.toggleTodo
              (server_put_completed no_dates alice an_instant sample_tasks) 12
              online_client in
  TodoApp.error s' = EmptyString
  ∧ task_A ∈ TodoApp.todos s'
  ∧ ∀ t, t ∈ TodoApp.todos s' → Todo._id t = 12 → Todo.completed t = true.
Proof.
  destruct (toggle_against_server no_dates alice an_instant sample_tasks
              online_client task_B) as (_ & _ & H3 & _ & H5 & H6);
    [compute_done | | compute_done |].
  - intros t Ht. apply elem_of_cons in Ht as [->|Ht];
      [|apply list_elem_of_singleton in Ht as ->]; split; compute_done.
  - split; [exact H3|]. split; [apply H6; [compute_done | discriminate]|].
    intros t Ht Hi. by destruct (H5 t Ht Hi) as [-> _].
Defined.

Lemma get_todos_default wb engine uid (c : Collection) :
  Routes.get_todos wb engine uid ∅ c
  = mkReply 200 true
      (Some (take 10 (Model.sort "createdAt" false (owned uid c))))
      (Some (mkPagination 1
               (Routes.ceil_div (Z.of_nat (length (owned uid c))) 10)
               (1 <? Routes.ceil_div (Z.of_nat (length (owned uid c))) 10)%Z
               false (length (owned uid c))))
      None.
Proof.
  pose proof (get_todos_reply wb engine uid ∅ c _ eq_refl
                (build_filter_plain_empty wb engine uid)) as H.
  cbv zeta in H. rewrite find_by_user_all in H. exact H.
Qed.

(** X24. Loading the list in the backend-integrated client. The client
    asks for the list without parameters, so against the list handler it
    ends up showing the ten most recently created tasks of the user,
    newest first, and all of them only when there are at most ten; the
    loading flag is off and no error is set. The list handler answers a
    request without parameters the same way under either version of the
    framework and whatever the pattern engine. *)
Theorem fetch_against_server wb engine uid (c : Collection) (s : TodoApp.state) :
  let s' := TodoApp.fetchTodos (server_get wb engine uid c) s in
  TodoApp.todos s' = take 10 (Model.sort "createdAt" false (owned uid c))
  ∧ length (TodoApp.todos s') = Nat.min 10 (length (owned uid c))
  ∧ shows uid c s'
  ∧ StronglySorted newer_first (TodoApp.todos s')
  ∧ TodoApp.loading s' = false ∧ TodoApp.error s' = EmptyString.
Proof.
  intros s'. subst s'. unfold TodoApp.fetchTodos, server_get.
  rewrite get_todos_default. simpl.
  set (sorted := Model.sort "createdAt" false (owned uid c)).
  assert (sorted ≡ₚ owned uid c) as Hperm by apply merge_sort_Permutation.
  split_and!; try reflexivity.
  - rewrite length_take, (Permutation_length Hperm). reflexivity.
  - intros t Ht. simpl in Ht. apply subseteq_take in Ht. rewrite Hperm in Ht.
    apply list_elem_of_filter in Ht as [? ?]. done.
  - pose proof (sort_created_desc (owned uid c)) as Hs. fold sorted in Hs.
    rewrite <- (take_drop 10 sorted) in Hs. by apply StronglySorted_app_1_l in Hs.
Qed.

Lemma delete_owned_reply uid (c : Collection) x :
  unique_ids c → x ∈ c → Todo.user x = uid →
  Routes.delete_todo (Some (Todo._id x)) uid c
  = (mkReply 200 true None None None, filter (λ y, y ≠ x) c).
Proof.
  intros Hu Hx <-. unfold Routes.delete_todo, Model.findOneAndDelete.
  rewrite (findOne_unique c x Hu Hx), (delete_first_unique c x Hu Hx). reflexivity.
Qed.

(** X25. A delete of the backend-integrated client against the delete
    handler. When the client shows stored tasks of the user, deleting one
    of them removes it from the store and from the view, keeps every
    other shown task, sets no error, and leaves the client showing stored
    tasks of the user only. *)
Theorem delete_against_server uid (c : Collection) (s : TodoApp.state) x :
  unique_ids c → shows uid c s → x ∈ TodoApp.todos s →
  let s' := TodoApp.deleteTodo (server_delete uid c) (Todo._id x) s in
  let c' := (Routes.delete_todo (Some (Todo._id x)) uid c).2 in
  shows uid c' s' ∧ unique_ids c'
  ∧ ¬ x ∈ c' ∧ ¬ x ∈ TodoApp.todos s'
  ∧ TodoApp.error s' = EmptyString
  ∧ (∀ t, t ∈ TodoApp.todos s → t ≠ x → t ∈ TodoApp.todos s').
Proof.
  intros Hu Hs Hx s' c'. destruct (Hs x Hx) as [Hxc Hxu].
  assert (c' = filter (λ y, y ≠ x) c) as Hc'
    by (unfold c'; rewrite (delete_owned_reply uid c x); done).
  assert (TodoApp.todos s' = filter (λ t, Todo._id t ≠ Todo._id x) (TodoApp.todos s)
          ∧ TodoApp.error s' = EmptyString) as [Ht' He'].
  { unfold s', TodoApp.deleteTodo, server_delete.
    rewrite (delete_owned_reply uid c x) by done. simpl. done. }
  split_and!.
  - intros t Ht. rewrite Ht' in Ht. apply list_elem_of_filter in Ht as [Hne Ht].
    destruct (Hs t Ht) as [Hc Hw]. split; [|exact Hw].
    rewrite Hc'. apply list_elem_of_filter. split; [congruence | exact Hc].
  - rewrite Hc'. by apply unique_ids_filter.
  - rewrite Hc'. intros H. apply list_elem_of_filter in H as [H _]. by apply H.
  - rewrite Ht'. intros H. apply list_elem_of_filter in H as [H _]. by apply H.
  - exact He'.
  - intros t Ht Hne. rewrite Ht'. apply list_elem_of_filter. split; [|exact Ht].
    intros He. apply Hne. apply (unique_ids_inj c); [done | by apply Hs | done..].
Qed.

Lemma delete_against_server_witness :
  let s' := TodoApp.deleteTodo (server_delete alice sample_tasks) 12 online_client in
  TodoApp.todos s' = [task_A] ∧ TodoApp.error s' = EmptyString.
Proof.
  destruct (delete_against_server alice sample_tasks online_client task_B)
    as (_ & _ & _ & _ & H5 & _); [compute_done | | compute_done |].
  - intros t Ht. apply elem_of_cons in Ht as [->|Ht];
      [|apply list_elem_of_singleton in Ht as ->]; split; compute_done.
  - split; [reflexivity | exact H5].
Defined.

Lemma list_defaults_witness :
  ∃ items pg,
    Routes.get_todos false fragment_only alice ∅ sample_tasks
    = mkReply 200 true (Some items) (Some pg) None
    ∧ length items = 3 ∧ totalTodos pg = 3
    ∧ ∀ x, x ∈ items → x ∈ sample_tasks ∧ Todo.user x = alice.
Proof.
  destruct (list_defaults false fragment_only alice sample_tasks)
    as (items & pg & Hr & _ & Hl & _ & Hin & _ & Ht & _).
  exists items, pg. split; [exact Hr|]. split; [exact Hl|].
  split; [exact Ht | exact Hin].
Defined.

(** ** Deadline labels *)

Lemma ceil_hours_le r k : (ceil_hours r ≤ k ↔ r ≤ k * 3600000)%Z.
Proof.
  unfold ceil_hours, Qceiling, Qfloor. cbn. rewrite !Z.mul_1_r.
  change (Z.pos (1 * 3600000)) with 3600000%Z.
  pose proof (Z.div_mod (- r) 3600000) as Hd.
  pose proof (Z.mod_pos_bound (- r) 3600000) as Hm.
  lia.
Qed.

(** X26. The label of a deadline agrees with the classifier. Without a
    deadline the label is empty. For a task that is not completed: the
    bucket is [today] exactly when the label counts the hours left, with
    n = ceil(remaining / 1h) between 0 and 24, written "(now)" for n = 0;
    and when the bucket is [overdue] the label either counts the hours
    "ago" (at most 24, rounded towards zero) or is the full date. *)
Theorem label_agrees_with_classifier now timeStr dateStr d :
  let label := App.formatDeadline now timeStr dateStr (Some d) in
  let n := ceil_hours (d - now) in
  App.formatDeadline now timeStr dateStr None = EmptyString
  ∧ (App.getDeadlineStatus now (Some d) false = today ↔
     (0 ≤ n ≤ 24)%Z
     ∧ label = if (n =? 0)%Z then timeStr d +:+ " (now)"
               else timeStr d +:+ " (" +:+ pretty n +:+ "h left)")
  ∧ (App.getDeadlineStatus now (Some d) false = overdue →
     (n ≤ 0)%Z
     ∧ label = if (-24 <=? n)%Z
               then timeStr d +:+ " (" +:+ pretty (- n)%Z +:+ "h ago)"
               else dateStr d +:+ " " +:+ timeStr d)
  ∧ (App.getDeadlineStatus now (Some d) false ∈ [soon; normal] →
     label = dateStr d +:+ " " +:+ timeStr d).
Proof.
  intros label n. subst label. unfold App.formatDeadline. cbv zeta.
  change (Qceiling (inject_Z (d - now) / inject_Z (1000 * 60 * 60)))
    with (ceil_hours (d - now)). fold n.
  rewrite getDeadlineStatus_pending.
  pose proof (ceil_hours_le (d - now) 24) as [H24 H24'].
  pose proof (ceil_hours_le (d - now) 0) as [H0 H0'].
  pose proof (ceil_hours_le (d - now) (-1)) as [Hm Hm'].
  fold n in H24, H24', H0, H0', Hm, Hm'.
  split; [reflexivity|].
  destruct (Z.ltb_spec (d - now) 0) as [Hneg|Hpos].
  - split_and!.
    + split; [discriminate|]. intros [[Hn _] Hl]. exfalso.
      assert (n = 0%Z) as Hz by lia. rewrite Hz in Hl. simpl in Hl.
      apply (inj (String.append (timeStr d))) in Hl. discriminate.
    + intros _. split; [lia|]. replace (Z.abs n) with (- n)%Z by lia. reflexivity.
    + intros Hin. repeat (apply elem_of_cons in Hin as [Hin|Hin]; [discriminate|]).
      by apply elem_of_nil in Hin.
  - destruct (Z.leb_spec (d - now) 86400000) as [Hday|Hday].
    + assert (n ≤ 24)%Z as Hn24 by (apply H24'; lia).
      assert (0 ≤ n)%Z as Hn0 by (destruct (Z.le_gt_cases 0 n); [done|]; lia).
      destruct (Z.leb_spec n 24); [|lia]. split_and!.
      * split; [intros _; split; [lia | reflexivity] | reflexivity].
      * discriminate.
      * intros Hin. repeat (apply elem_of_cons in Hin as [Hin|Hin]; [discriminate|]).
        by apply elem_of_nil in Hin.
    + assert (24 < n)%Z as Hn by (destruct (Z.le_gt_cases n 24); [|lia]; lia).
      destruct (Z.leb_spec n 24); [lia|]. split_and!.
      * split; [destruct (_ <=? _)%Z; discriminate | intros [[_ ?] _]; lia].
      * destruct (_ <=? _)%Z; discriminate.
      * intros _. reflexivity.
Qed.

Lemma label_agrees_with_classifier_witness :
  App.formatDeadline an_instant sample_time sample_date
    (Some (an_instant + 5400000)%Z) = "10:00 (2h left)"
  ∧ App.formatDeadline an_instant sample_time sample_date
      (Some (an_instant - 5400000)%Z) = "10:00 (1h ago)".
Proof.
  split.
  - destruct (label_agrees_with_classifier an_instant sample_time sample_date
                (an_instant + 5400000)) as (_ & [H _] & _).
    destruct (H eq_refl) as [_ ->]. reflexivity.
  - destruct (label_agrees_with_classifier an_instant sample_time sample_date
                (an_instant - 5400000)) as (_ & _ & H & _).
    destruct (H eq_refl) as [_ ->]. reflexivity.
Defined.

Lemma fetch_against_server_witness :
  let s' := TodoApp.fetchTodos (server_get true fragment_only alice sample_tasks)
              online_client in
  length (TodoApp.todos s') = 3 ∧ task_C ∈ TodoApp.todos s'
  ∧ ∀ t, t ∈ TodoApp.todos s' → t ∈ sample_tasks ∧ Todo.user t = alice.
Proof.
  destruct (fetch_against_server true fragment_only alice sample_tasks online_client)
    as (_ & H2 & H3 & _).
  split; [exact H2|]. split; [compute_done | exact H3].
Defined.
